(** * Color detection core: conversions, named-colour matching, sampling and
      dominant-colour extraction

    A shallow embedding of [core/color_converter.py], [core/color_matcher.py]
    and [core/color_detector.py].

    - Python [int] is [Z]; Python [float] and numpy [float64] are the kernel's
      binary64 numbers ([PrimFloat.float], round-to-nearest-even), so every
      arithmetic step below rounds exactly as the interpreter does.
    - Python [str] is [string] (the ASCII fragment).
    - A raised exception is [None] (converter, detector) or an [exn] value
      (matcher construction, where the handler distinguishes exception classes).
    - Library calls of numpy / scikit-learn whose algorithm is not part of this
      repository are either modelled by their documented contract (slicing,
      [np.unique], [np.mean], the KD-tree query, the stable sort) or taken as
      parameters ([KMeans.fit], the outcome of [np.random.choice]). *)

From Stdlib Require Import ZArith List String Ascii Bool Lia.
From Stdlib Require Import Floats Uint63.
From Stdlib Require Import Sorting.Sorted Sorting.Permutation.
Import ListNotations.

Set Warnings "-inexact-float".

Local Open Scope string_scope.
Local Open Scope Z_scope.

(* ================================================================== *)
(** * Python built-ins used by the converter                           *)
(* ================================================================== *)

Module Py.

(** ** Strings *)

(** One lowercase hexadecimal digit, [0 <= d < 16]. *)
Definition hex_digit (d : Z) : ascii :=
  if d <? 10 then ascii_of_nat (Z.to_nat (48 + d))
  else ascii_of_nat (Z.to_nat (87 + d)).

Fixpoint hex_digits_aux (fuel : nat) (n : Z) (acc : string) : string :=
  match fuel with
  | O => acc
  | S fuel' =>
      let acc' := String (hex_digit (n mod 16)) acc in
      if n <? 16 then acc' else hex_digits_aux fuel' (n / 16) acc'
  end.

(** [format(n, 'x')] for [0 <= n]: the digits, most significant first. *)
Definition hex_digits (n : Z) : string :=
  hex_digits_aux (S (Z.to_nat (Z.log2 n))) n "".

Fixpoint zeros (k : nat) : string :=
  match k with O => "" | S k' => String "0" (zeros k') end.

(** [format(n, '02x')]: sign, then the digits zero-padded so that the whole
    field is at least two characters wide. *)
Definition format_02x (n : Z) : string :=
  if n <? 0 then
    let d := hex_digits (- n) in
    String "-" (zeros (2 - 1 - String.length d) ++ d)
  else
    let d := hex_digits n in
    zeros (2 - String.length d) ++ d.

Definition upper_char (c : ascii) : ascii :=
  let n := nat_of_ascii c in
  if andb (Nat.leb 97 n) (Nat.leb n 122) then ascii_of_nat (n - 32) else c.

(** [str.upper] *)
Fixpoint upper (s : string) : string :=
  match s with
  | EmptyString => EmptyString
  | String c s' => String (upper_char c) (upper s')
  end.

(** [str.lstrip(ch)] for a one-character argument. *)
Fixpoint lstrip (ch : ascii) (s : string) : string :=
  match s with
  | String c s' => if Ascii.eqb c ch then lstrip ch s' else s
  | EmptyString => EmptyString
  end.

(** [''.join([c * 2 for c in s])] *)
Fixpoint double_chars (s : string) : string :=
  match s with
  | EmptyString => EmptyString
  | String c s' => String c (String c (double_chars s'))
  end.

(** [s[i:i+2]] for [0 <= i]: out-of-range slices are shortened, never an
    error. *)
Definition slice2 (i : nat) (s : string) : string := substring i 2 s.

(** ** [int(s, 16)] *)

Definition is_space (c : ascii) : bool :=
  let n := nat_of_ascii c in
  orb (andb (Nat.leb 9 n) (Nat.leb n 13))
      (orb (andb (Nat.leb 28 n) (Nat.leb n 31)) (Nat.eqb n 32)).

Definition hex_value (c : ascii) : option Z :=
  let n := nat_of_ascii c in
  if andb (Nat.leb 48 n) (Nat.leb n 57) then Some (Z.of_nat n - 48)
  else if andb (Nat.leb 65 n) (Nat.leb n 70) then Some (Z.of_nat n - 55)
  else if andb (Nat.leb 97 n) (Nat.leb n 102) then Some (Z.of_nat n - 87)
  else None.

Fixpoint skip_spaces (s : string) : string :=
  match s with
  | String c s' => if is_space c then skip_spaces s' else s
  | EmptyString => EmptyString
  end.

(** The digit scan of [PyLong_FromString]: digits separated by single
    underscores.  [prev_us] records that the previous character was an
    underscore, [seen] that at least one digit has been read.  Returns the
    accumulated value and the unread rest. *)
Fixpoint scan_digits (s : string) (acc : Z) (prev_us seen : bool)
  : option (Z * string) :=
  match s with
  | EmptyString => if prev_us then None else if seen then Some (acc, s) else None
  | String c s' =>
      match hex_value c with
      | Some d => scan_digits s' (16 * acc + d) false true
      | None =>
          if Ascii.eqb c "_" then
            if prev_us then None else scan_digits s' acc true seen
          else if prev_us then None else if seen then Some (acc, s) else None
      end
  end.

Definition strip_prefix (s : string) : string :=
  match s with
  | String "0" (String x rest) =>
      if orb (Ascii.eqb x "x") (Ascii.eqb x "X") then
        match rest with
        | String "_" rest' => rest'
        | _ => rest
        end
      else s
  | _ => s
  end.

(** [int(s, 16)]; [None] is [ValueError]. *)
Definition int16 (s : string) : option Z :=
  let s1 := skip_spaces s in
  let '(neg, s2) :=
    match s1 with
    | String "+" r => (false, r)
    | String "-" r => (true, r)
    | _ => (false, s1)
    end in
  let s3 := strip_prefix s2 in
  match s3 with
  | String "_" _ => None
  | _ =>
      match scan_digits s3 0 false false with
      | Some (v, rest) =>
          match skip_spaces rest with
          | EmptyString => Some (if neg then - v else v)
          | _ => None
          end
      | None => None
      end
  end.

(** ** Floats *)

(** [float(n)] for a Python int, exact for [|n| < 2^53]. *)
Definition Z2F (n : Z) : float :=
  match n with
  | Z0 => 0%float
  | Zpos _ => of_uint63 (Uint63.of_Z n)
  | Zneg p => (- of_uint63 (Uint63.of_Z (Zpos p)))%float
  end.

(** [int(x)] for a finite float: truncation toward zero.  ([int] raises on
    nan and on the infinities; the model yields 0 there.) *)
Definition int_of_float (x : float) : Z :=
  match Prim2SF x with
  | S754_finite s m e =>
      let a := Z.shiftl (Zpos m) e in
      if s then - a else a
  | _ => 0
  end.

(** [max(a, b, c)] and [min(a, b, c)]: the first extremal argument wins. *)
Definition max3 (a b c : float) : float :=
  let m := if (a <? b)%float then b else a in
  if (m <? c)%float then c else m.

Definition min3 (a b c : float) : float :=
  let m := if (b <? a)%float then b else a in
  if (c <? m)%float then c else m.

(** [x % 1.0]: C [fmod] (exact, sign of [x]), then one addition of [1.0]
    when the remainder is negative. *)
Definition mod1 (x : float) : float :=
  let t := Z2F (int_of_float x) in
  let m := (x - t)%float in
  if (m =? 0)%float then 0%float
  else if (m <? 0)%float then (m + 1)%float else m.

(** [int(min(255, max(0, x)))]: [max] keeps the int [0] unless [x > 0], [min]
    keeps the int [255] unless the running value is below it. *)
Definition clamp_byte (x : float) : Z :=
  if (0 <? x)%float then
    if (x <? 255)%float then int_of_float x else 255
  else 0.

(** ** numpy *)

(** [np.rint]: nearest integer, halves to even. *)
Definition rint (y : float) : float :=
  let t := int_of_float y in
  let f := abs (y - Z2F t)%float in
  let away := if (y <? 0)%float then t - 1 else t + 1 in
  if (f <? 0.5)%float then Z2F t
  else if (0.5 <? f)%float then Z2F away
  else if Z.even t then Z2F t else Z2F away.

(** [round(x, 1)] on a [numpy.float64]: scale, [rint], unscale. *)
Definition round1 (x : float) : float := (rint (x * 10) / 10)%float.

(** [str.lower] *)
Definition lower_char (c : ascii) : ascii :=
  let n := nat_of_ascii c in
  if andb (Nat.leb 65 n) (Nat.leb n 90) then ascii_of_nat (n + 32) else c.

Fixpoint lower (s : string) : string :=
  match s with
  | EmptyString => EmptyString
  | String c s' => String (lower_char c) (lower s')
  end.

End Py.

(* ================================================================== *)
(** * core/color_converter.py                                          *)
(* ================================================================== *)

Definition RGB : Type := (Z * Z * Z)%type.

(** [rgb_to_hex]: [f"#{r:02x}{g:02x}{b:02x}".upper()] *)
Definition rgb_to_hex (r g b : Z) : string :=
  Py.upper ("#" ++ Py.format_02x r ++ Py.format_02x g ++ Py.format_02x b).

(** [hex_to_rgb]; [None] is the [ValueError] of a malformed string. *)
Definition hex_to_rgb (hex_color : string) : option RGB :=
  let hex_color := Py.lstrip "#" hex_color in
  let hex_color :=
    if Nat.eqb (String.length hex_color) 3 then Py.double_chars hex_color
    else hex_color in
  match Py.int16 (Py.slice2 0 hex_color) with
  | Some r =>
      match Py.int16 (Py.slice2 2 hex_color) with
      | Some g =>
          match Py.int16 (Py.slice2 4 hex_color) with
          | Some b => Some (r, g, b)
          | None => None
          end
      | None => None
      end
  | None => None
  end.

Definition in_byte (n : Z) : Prop := 0 <= n <= 255.
Definition in_byteb (n : Z) : bool := (0 <=? n) && (n <=? 255).

(** ** The standard library's [colorsys] *)

Module colorsys.


Definition hue_of (r g b maxc rangec : float) : float :=
  let rc := ((maxc - r) / rangec)%float in
  let gc := ((maxc - g) / rangec)%float in
  let bc := ((maxc - b) / rangec)%float in
  let h :=
    if (r =? maxc)%float then (bc - gc)%float
    else if (g =? maxc)%float then (2 + rc - bc)%float
    else (4 + gc - rc)%float in
  Py.mod1 (h / 6).

Definition rgb_to_hsv (r g b : float) : float * float * float :=
  let maxc := Py.max3 r g b in
  let minc := Py.min3 r g b in
  let rangec := (maxc - minc)%float in
  let v := maxc in
  if (minc =? maxc)%float then (0%float, 0%float, v)
  else
    let s := (rangec / maxc)%float in
    (hue_of r g b maxc rangec, s, v).

Definition hsv_to_rgb (h s v : float) : float * float * float :=
  if (s =? 0)%float then (v, v, v)
  else
    let i := Py.int_of_float (h * 6) in
    let f := (h * 6 - Py.Z2F i)%float in
    let p := (v * (1 - s))%float in
    let q := (v * (1 - s * f))%float in
    let t := (v * (1 - s * (1 - f)))%float in
    let i := i mod 6 in
    if i =? 0 then (v, t, p)
    else if i =? 1 then (q, v, p)
    else if i =? 2 then (p, v, t)
    else if i =? 3 then (p, q, v)
    else if i =? 4 then (t, p, v)
    else (v, p, q).

Definition rgb_to_hls (r g b : float) : float * float * float :=
  let maxc := Py.max3 r g b in
  let minc := Py.min3 r g b in
  let sumc := (maxc + minc)%float in
  let rangec := (maxc - minc)%float in
  let l := (sumc / 2)%float in
  if (minc =? maxc)%float then (0%float, l, 0%float)
  else
    let s :=
      if (l <=? 0.5)%float then (rangec / sumc)%float
      else (rangec / (2 - maxc - minc))%float in
    (hue_of r g b maxc rangec, l, s).



End colorsys.

(** ** HSV, HSL, CMYK *)

Definition rgb_to_hsv (r g b : Z) : Z * Z * Z :=
  let '(h, s, v) :=
    colorsys.rgb_to_hsv (Py.Z2F r / 255) (Py.Z2F g / 255) (Py.Z2F b / 255) in
  (Py.int_of_float (h * 360), Py.int_of_float (s * 100),
   Py.int_of_float (v * 100)).

Definition hsv_to_rgb (h s v : Z) : RGB :=
  let '(r, g, b) :=
    colorsys.hsv_to_rgb (Py.Z2F h / 360) (Py.Z2F s / 100) (Py.Z2F v / 100) in
  (Py.int_of_float (r * 255), Py.int_of_float (g * 255),
   Py.int_of_float (b * 255)).

Definition rgb_to_hsl (r g b : Z) : Z * Z * Z :=
  let '(h, l, s) :=
    colorsys.rgb_to_hls (Py.Z2F r / 255) (Py.Z2F g / 255) (Py.Z2F b / 255) in
  (Py.int_of_float (h * 360), Py.int_of_float (s * 100),
   Py.int_of_float (l * 100)).


Definition rgb_to_cmyk (r g b : Z) : Z * Z * Z * Z :=
  if (r =? 0) && (g =? 0) && (b =? 0) then (0, 0, 0, 100)
  else
    let c := (1 - Py.Z2F r / 255)%float in
    let m := (1 - Py.Z2F g / 255)%float in
    let y := (1 - Py.Z2F b / 255)%float in
    let k := Py.min3 c m y in
    if (k =? 1)%float then (0, 0, 0, 100)
    else
      let c := ((c - k) / (1 - k))%float in
      let m := ((m - k) / (1 - k))%float in
      let y := ((y - k) / (1 - k))%float in
      (Py.int_of_float (c * 100), Py.int_of_float (m * 100),
       Py.int_of_float (y * 100), Py.int_of_float (k * 100)).

Definition cmyk_to_rgb (c m y k : Z) : RGB :=
  let c := (Py.Z2F c / 100)%float in
  let m := (Py.Z2F m / 100)%float in
  let y := (Py.Z2F y / 100)%float in
  let k := (Py.Z2F k / 100)%float in
  let r := (255 * (1 - c) * (1 - k))%float in
  let g := (255 * (1 - m) * (1 - k))%float in
  let b := (255 * (1 - y) * (1 - k))%float in
  (Py.int_of_float r, Py.int_of_float g, Py.int_of_float b).

(** ** WCAG rating *)

Definition get_wcag_rating (contrast_ratio : float) : string :=
  if (7 <=? contrast_ratio)%float then "AAA (Excellent)"
  else if (4.5 <=? contrast_ratio)%float then "AA (Good)"
  else if (3 <=? contrast_ratio)%float then "AA Large (Acceptable)"
  else "Fail (Poor)".

(** ** Colour-blindness simulation *)

Definition Row3 : Type := (float * float * float)%type.
Definition Matrix : Type := (Row3 * Row3 * Row3)%type.

Definition COLOR_BLINDNESS_MATRICES : list (string * Matrix) :=
  [ ("protanopia",
      ((0.567, 0.433, 0.000),
       (0.558, 0.442, 0.000),
       (0.000, 0.242, 0.758))%float);
    ("deuteranopia",
      ((0.625, 0.375, 0.000),
       (0.700, 0.300, 0.000),
       (0.000, 0.300, 0.700))%float);
    ("tritanopia",
      ((0.950, 0.050, 0.000),
       (0.000, 0.433, 0.567),
       (0.000, 0.475, 0.525))%float);
    ("achromatopsia",
      ((0.299, 0.587, 0.114),
       (0.299, 0.587, 0.114),
       (0.299, 0.587, 0.114))%float) ].

(** Dictionary lookup by key; [None] when the key is absent. *)
Fixpoint dict_get {V : Type} (d : list (string * V)) (k : string) : option V :=
  match d with
  | [] => None
  | (k', v) :: d' => if String.eqb k k' then Some v else dict_get d' k
  end.

(** [row[0] * r + row[1] * g + row[2] * b] *)
Definition row_apply (row : Row3) (r g b : Z) : float :=
  let '(m0, m1, m2) := row in
  (m0 * Py.Z2F r + m1 * Py.Z2F g + m2 * Py.Z2F b)%float.

Definition simulate_color_blindness (r g b : Z) (blindness_type : string) : RGB :=
  match dict_get COLOR_BLINDNESS_MATRICES blindness_type with
  | None => (r, g, b)
  | Some matrix =>
      let '(row0, row1, row2) := matrix in
      let new_r := Py.clamp_byte (row_apply row0 r g b) in
      let new_g := Py.clamp_byte (row_apply row1 r g b) in
      let new_b := Py.clamp_byte (row_apply row2 r g b) in
      (new_r, new_g, new_b)
  end.

(* ================================================================== *)
(** * core/color_matcher.py                                            *)
(* ================================================================== *)

Module ColorMatcher.

(** Exceptions that can leave the constructor. *)
Inductive exn : Type :=
| FileNotFoundError
| OSError (what : string)     (* PermissionError, IsADirectoryError, ... *)
| JSONDecodeError
| KeyError (key : string)
| ValueError.

(** One element of [data['colors']]; an absent key is [None]. *)
Record JsonColor : Type := {
  j_rgb : option RGB;
  j_name : option string;
  j_hex : option string
}.

(** What [open] and [json.load] find at [colors_file]. *)
Inductive DataSource : Type :=
| Missing                                 (* [open] raises FileNotFoundError *)
| Unreadable (what : string)              (* [open] raises another OSError *)
| Malformed                               (* [json.load] raises *)
| Document (colors : option (list JsonColor)).  (* [None]: no 'colors' key *)

(** The three parallel lists of the instance, and the spatial index built
    over [colors]. *)
Record t : Type := {
  colors : list RGB;
  color_names : list string;
  color_hex : list string
}.

Definition empty : t := {| colors := []; color_names := []; color_hex := [] |}.

Definition result (A : Type) : Type := (exn + A)%type.
Definition ret {A} (a : A) : result A := inr a.
Definition raise {A} (e : exn) : result A := inl e.
Definition bind {A B} (m : result A) (k : A -> result B) : result B :=
  match m with inl e => inl e | inr a => k a end.

Notation "x <- m ;; k" := (bind m (fun x => k))
  (at level 61, m at next level, right associativity).

Definition get_key {A} (key : string) (o : option A) : result A :=
  match o with Some a => ret a | None => raise (KeyError key) end.

(** The three [append]s of one loop iteration, in source order. *)
Definition append_color (self : t) (rgb : RGB) (name hex : string) : t :=
  {| colors := colors self ++ [rgb];
     color_names := color_names self ++ [name];
     color_hex := color_hex self ++ [hex] |}.

Definition fallback : list (string * RGB * string) :=
  [ ("Black", (0, 0, 0), "#000000");
    ("White", (255, 255, 255), "#FFFFFF");
    ("Red", (255, 0, 0), "#FF0000");
    ("Green", (0, 255, 0), "#00FF00");
    ("Blue", (0, 0, 255), "#0000FF");
    ("Yellow", (255, 255, 0), "#FFFF00");
    ("Cyan", (0, 255, 255), "#00FFFF");
    ("Magenta", (255, 0, 255), "#FF00FF");
    ("Gray", (128, 128, 128), "#808080");
    ("Orange", (255, 165, 0), "#FFA500");
    ("Purple", (128, 0, 128), "#800080");
    ("Pink", (255, 192, 203), "#FFC0CB");
    ("Brown", (165, 42, 42), "#A52A2A") ].

Definition _use_fallback_colors (self : t) : t :=
  fold_left (fun self color =>
               let '(name, rgb, hex) := color in append_color self rgb name hex)
            fallback self.

Fixpoint load_loop (data : list JsonColor) (self : t) : result t :=
  match data with
  | [] => ret self
  | color :: rest =>
      rgb <- get_key "rgb" (j_rgb color) ;;
      name <- get_key "name" (j_name color) ;;
      hex <- get_key "hex" (j_hex color) ;;
      load_loop rest (append_color self rgb name hex)
  end.

(** [_load_colors]: the [try] body, and the single handler
    [except FileNotFoundError]. *)
Definition _load_colors (src : DataSource) (self : t) : result t :=
  match src with
  | Missing => ret (_use_fallback_colors self)
  | Unreadable what => raise (OSError what)
  | Malformed => raise JSONDecodeError
  | Document None => raise (KeyError "colors")
  | Document (Some data) => load_loop data self
  end.

(** [_build_tree]: [KDTree] refuses an empty point set. *)
Definition _build_tree (self : t) : result t :=
  match colors self with
  | [] => raise ValueError
  | _ => ret self
  end.

Definition __init__ (src : DataSource) : result t :=
  self <- _load_colors src empty ;;
  _build_tree self.

(** Squared Euclidean distance in RGB space. *)
Definition dist2 (p q : RGB) : Z :=
  let '(r1, g1, b1) := p in
  let '(r2, g2, b2) := q in
  (r1 - r2) * (r1 - r2) + (g1 - g2) * (g1 - g2) + (b1 - b2) * (b1 - b2).

(** [tree.query(query, k)[..][0][0]]: a nearest neighbour of [q].  The
    index is found by scanning; among equidistant points the first is kept
    (no theorem below depends on how ties are resolved).  [best] is the
    running (index, squared distance). *)
Fixpoint nearest_from (q : RGB) (pts : list RGB) (i : nat) (best : nat * Z)
  : nat * Z :=
  match pts with
  | [] => best
  | p :: pts' =>
      let d := dist2 q p in
      nearest_from q pts' (S i) (if d <? snd best then (i, d) else best)
  end.

Definition query (pts : list RGB) (q : RGB) : option (nat * Z) :=
  match pts with
  | [] => None
  | p :: pts' => Some (nearest_from q pts' 1 (O, dist2 q p))
  end.

Record MatchResult : Type := {
  name : string;
  hex : string;
  rgb : RGB;
  input_rgb : RGB;
  distance : float;
  confidence : float
}.

Definition max_distance : float := 441.67%float.

(** [max(0, 1 - distance / max_distance) * 100], before rounding. *)
Definition raw_confidence (distance : float) : float :=
  let x := (1 - distance / max_distance)%float in
  ((if (0 <? x)%float then x else 0) * 100)%float.

(** [find_closest_color(r, g, b, k)]; [None] when [tree.query] rejects [k]. *)
Definition find_closest_color (self : t) (r g b : Z) (k : Z)
  : option MatchResult :=
  if (k <? 1) || (Z.of_nat (List.length (colors self)) <? k) then None
  else
    match query (colors self) (r, g, b) with
    | None => None
    | Some (idx, d2) =>
        let distance := PrimFloat.sqrt (Py.Z2F d2) in
        let confidence := raw_confidence distance in
        Some {| name := nth idx (color_names self) "";
                hex := nth idx (color_hex self) "";
                rgb := nth idx (colors self) (0, 0, 0);
                input_rgb := (r, g, b);
                distance := distance;
                confidence := Py.round1 confidence |}
    end.

(** The dictionary with keys ['name'], ['hex'], ['rgb'] that
    [search_by_name] and [get_all_colors] return. *)
Record NamedColor : Type := {
  nc_name : string;
  nc_hex : string;
  nc_rgb : RGB
}.

(** The entry assembled from position [i] of the three lists. *)
Definition entry_at (self : t) (i : nat) : NamedColor :=
  {| nc_name := nth i (color_names self) "";
     nc_hex := nth i (color_hex self) "";
     nc_rgb := nth i (colors self) (0, 0, 0) |}.



Definition get_all_colors (self : t) : list NamedColor :=
  map (entry_at self) (seq 0 (List.length (colors self))).

(** [tree.query(query, k)] for [1 <= k <= len(points)]: the indices of the
    [k] points nearest to [q] with their squared distances, nearest first.
    The points are ordered by a stable insertion sort on the distance (no
    theorem below depends on the order among equidistant points). *)
Fixpoint insert_near (x : nat * Z) (l : list (nat * Z)) : list (nat * Z) :=
  match l with
  | [] => [x]
  | y :: l' => if snd x <? snd y then x :: l else y :: insert_near x l'
  end.

Definition by_distance (pts : list RGB) (q : RGB) : list (nat * Z) :=
  fold_left (fun acc ip => insert_near ip acc)
            (combine (seq 0 (List.length pts)) (map (dist2 q) pts)) [].

Definition query_k (pts : list RGB) (q : RGB) (k : Z) : list (nat * Z) :=
  firstn (Z.to_nat k) (by_distance pts q).

(** The dictionary built for one neighbour by [find_multiple_matches] (it
    has no ['input_rgb'] key; the field repeats the query here). *)
Definition match_at (self : t) (q : RGB) (hit : nat * Z) : MatchResult :=
  let '(idx, d2) := hit in
  let distance := PrimFloat.sqrt (Py.Z2F d2) in
  {| name := nth idx (color_names self) "";
     hex := nth idx (color_hex self) "";
     rgb := nth idx (colors self) (0, 0, 0);
     input_rgb := q;
     distance := distance;
     confidence := Py.round1 (raw_confidence distance) |}.

(** [find_multiple_matches(r, g, b, count)].  The query asks for
    [min(count, len(self.colors))] neighbours; the library is defined for at
    least one neighbour, and [None] stands for every call below that. *)
Definition find_multiple_matches (self : t) (r g b : Z) (count : Z)
  : option (list MatchResult) :=
  let k := Z.min count (Z.of_nat (List.length (colors self))) in
  if k <? 1 then None
  else Some (map (match_at self (r, g, b)) (query_k (colors self) (r, g, b) k)).

(** [get_color_matcher]: the module-level [_matcher_instance] is threaded
    through; [src] is what the default palette path holds at the time of
    the call.  Returns the new value of the global and the outcome. *)
Definition get_color_matcher (src : DataSource) (_matcher_instance : option t)
  : option t * result t :=
  match _matcher_instance with
  | Some m => (Some m, ret m)
  | None =>
      match __init__ src with
      | inl e => (None, raise e)
      | inr m => (Some m, ret m)
      end
  end.

(** [match_color]: [None] in the result position is an exception of the
    query itself. *)
Definition match_color (src : DataSource) (_matcher_instance : option t)
    (r g b : Z) : option t * result (option MatchResult) :=
  match get_color_matcher src _matcher_instance with
  | (g', inl e) => (g', raise e)
  | (g', inr m) => (g', ret (find_closest_color m r g b 1))
  end.

End ColorMatcher.

(* ================================================================== *)
(** * core/color_detector.py                                           *)
(* ================================================================== *)

Module ColorDetector.

(** A decoded image: a [height x width x 3] array of bytes, read through
    [pixel row col] for [0 <= row < height], [0 <= col < width]. *)
Record Image : Type := {
  height : Z;
  width : Z;
  pixel : Z -> Z -> RGB
}.

(** The detector's only field that the sampling functions read;
    [None] until an image is loaded. *)
Definition current_image : Type := option Image.

(** Integers [lo, lo+1, ..., hi-1]. *)
Definition zrange (lo hi : Z) : list Z :=
  map (fun i => lo + Z.of_nat i) (seq 0 (Z.to_nat (hi - lo))).

(** The index normalisation of a slice bound against an axis of length
    [len]: a negative bound counts from the end, then the bound is clipped
    to [0, len]. *)
Definition adjust_index (len i : Z) : Z :=
  if i <? 0 then Z.max 0 (i + len) else Z.min i len.

(** The indices selected by [a[start:stop]] on an axis of length [len]. *)
Definition slice (len start stop : Z) : list Z :=
  zrange (adjust_index len start) (adjust_index len stop).

Definition get_color_at_point (img : current_image) (x y : Z) : option RGB :=
  match img with
  | None => None
  | Some image =>
      if (0 <=? x) && (x <? width image) && (0 <=? y) && (y <? height image)
      then Some (pixel image y x)
      else None
  end.

Definition sum_channel (ch : RGB -> Z) (px : list RGB) : Z :=
  fold_right (fun p acc => ch p + acc) 0 px.

Definition red (p : RGB) : Z := fst (fst p).
Definition green (p : RGB) : Z := snd (fst p).
Definition blue (p : RGB) : Z := snd p.

(** [int(c)] of one component of [np.mean(region, axis=(0, 1))]: the
    channel is summed in double precision (exactly, the terms being bytes)
    and divided by the number of pixels. *)
Definition mean_channel (ch : RGB -> Z) (px : list RGB) : Z :=
  Py.int_of_float (Py.Z2F (sum_channel ch px) / Py.Z2F (Z.of_nat (List.length px))).

(** The pixels of [image[rows, cols]], row by row. *)
Definition region_pixels (image : Image) (rows cols : list Z) : list RGB :=
  flat_map (fun i => map (fun j => pixel image i j) cols) rows.

Definition get_average_color_in_region (img : current_image) (x y radius : Z)
  : option RGB :=
  match img with
  | None => None
  | Some image =>
      let y_min := Z.max 0 (y - radius) in
      let y_max := Z.min (height image) (y + radius + 1) in
      let x_min := Z.max 0 (x - radius) in
      let x_max := Z.min (width image) (x + radius + 1) in
      let rows := slice (height image) y_min y_max in
      let cols := slice (width image) x_min x_max in
      let region := region_pixels image rows cols in
      match region with
      | [] => None
      | _ =>
          Some (mean_channel red region, mean_channel green region,
                mean_channel blue region)
      end
  end.

(** ** Dominant colours *)

Record DominantColor : Type := {
  rgb : RGB;
  percentage : float;
  count : Z
}.

Definition Point : Type := (float * float * float)%type.

(** [image.reshape(-1, 3)] *)
Definition reshape_pixels (image : Image) : list RGB :=
  region_pixels image (zrange 0 (height image)) (zrange 0 (width image)).

(** [pixels[indices]] for an index array produced by the sampler. *)
Definition take_indices (pixels : list RGB) (indices : list Z) : list RGB :=
  map (fun i => nth (Z.to_nat i) pixels (0, 0, 0)) indices.

(** What [np.random.choice(n, size, replace=False)] promises about the
    array it returns: [size] pairwise distinct indices below [n].  Which of
    them it returns is decided by numpy's global generator, whose state is
    no argument of [extract_dominant_colors]. *)
Definition valid_draw (n size : Z) (indices : list Z) : Prop :=
  Z.of_nat (List.length indices) = size /\
  NoDup indices /\
  Forall (fun i => 0 <= i < n) indices.

(** [pixels.astype(float)] *)
Definition astype_float (pixels : list RGB) : list Point :=
  map (fun p => (Py.Z2F (red p), Py.Z2F (green p), Py.Z2F (blue p))) pixels.

(** [np.unique(labels, return_counts=True)]: the distinct labels in
    ascending order, each with its number of occurrences. *)
Fixpoint count_label (l : Z) (acc : list (Z * Z)) : list (Z * Z) :=
  match acc with
  | [] => [(l, 1)]
  | (l', c) :: acc' =>
      if l =? l' then (l', c + 1) :: acc'
      else if l <? l' then (l, 1) :: acc
      else (l', c) :: count_label l acc'
  end.

Definition unique_counts (labels : list Z) : list (Z * Z) :=
  fold_left (fun acc l => count_label l acc) labels [].

(** [list.sort(key=..., reverse=True)]: a stable sort, largest key first;
    elements whose keys compare equal keep their relative order. *)
Fixpoint insert_desc {A : Type} (key : A -> float) (x : A) (l : list A)
  : list A :=
  match l with
  | [] => [x]
  | y :: l' =>
      if (key x <? key y)%float then y :: insert_desc key x l' else x :: l
  end.

Fixpoint sort_desc {A : Type} (key : A -> float) (l : list A) : list A :=
  match l with
  | [] => []
  | x :: l' => insert_desc key x (sort_desc key l')
  end.

Definition int_point (c : Point) : RGB :=
  let '(c0, c1, c2) := c in
  (Py.int_of_float c0, Py.int_of_float c1, Py.int_of_float c2).

(** The loop over [enumerate(zip(colors, percentages))]; [zip] stops at the
    shorter sequence, and [counts] is as long as [percentages]. *)
Fixpoint build_results (colors : list Point) (counts : list Z) (total : Z)
  : list DominantColor :=
  match colors, counts with
  | color :: colors', c :: counts' =>
      {| rgb := int_point color;
         percentage := Py.round1 (Py.Z2F c / Py.Z2F total * 100);
         count := c |} :: build_results colors' counts' total
  | _, _ => []
  end.

Section Extract.

(** [KMeans(n_clusters, random_state, n_init).fit(X)], returning
    [(cluster_centers_, labels_)]; [None] when [fit] raises.  With
    [random_state] an integer the estimator is a function of its
    arguments. *)
Variable KMeans_fit :
  forall (n_clusters random_state n_init : Z) (X : list Point),
    option (list Point * list Z).

(** The body of [extract_dominant_colors] from the reshape to the end of
    the loop that fills [results], for a loaded image.  [draw] is the array
    that [np.random.choice] returns if it is called.  [None] is an
    exception escaping the method. *)
Definition cluster_summary (image : Image) (n_colors sample_size : Z)
    (draw : list Z) : option (list DominantColor) :=
  let pixels := reshape_pixels image in
  let sampled :=
    if sample_size <? Z.of_nat (List.length pixels) then
      if sample_size <? 0 then None
      else Some (take_indices pixels draw)
    else Some pixels in
  match sampled with
  | None => None
  | Some pixels =>
      match KMeans_fit n_colors 42 10 (astype_float pixels) with
      | None => None
      | Some (colors, labels) =>
          let counts := map snd (unique_counts labels) in
          let total := Z.of_nat (List.length labels) in
          Some (build_results colors counts total)
      end
  end.

(** [extract_dominant_colors(n_colors, sample_size)]: no image gives the
    empty list; otherwise [results] is sorted by percentage, most dominant
    first. *)
Definition extract_dominant_colors (img : current_image)
    (n_colors sample_size : Z) (draw : list Z)
  : option (list DominantColor) :=
  match img with
  | None => Some []
  | Some image =>
      match cluster_summary image n_colors sample_size draw with
      | None => None
      | Some results => Some (sort_desc percentage results)
      end
  end.

End Extract.

(** The one-cluster instance of k-means, used to run the extractor on
    concrete buffers: with [n_clusters = 1] every sample gets label 0 and
    the centre is the mean of the samples; [fit] raises on an empty sample
    set.  Other cluster counts are outside this instance. *)
Definition mean_point (X : list Point) : Point :=
  let n := Py.Z2F (Z.of_nat (List.length X)) in
  let s := fold_left (fun acc p =>
              let '(a0, a1, a2) := acc in
              let '(p0, p1, p2) := p in
              (a0 + p0, a1 + p1, a2 + p2)%float) X (0, 0, 0)%float in
  let '(s0, s1, s2) := s in
  (s0 / n, s1 / n, s2 / n)%float.

Definition KMeans1_fit (n_clusters random_state n_init : Z) (X : list Point)
  : option (list Point * list Z) :=
  match X with
  | [] => None
  | _ =>
      if n_clusters =? 1 then Some ([mean_point X], map (fun _ => 0) X)
      else None
  end.

(** [get_image_size]: [(width, height)]. *)
Definition get_image_size (img : current_image) : option (Z * Z) :=
  match img with
  | None => None
  | Some image => Some (width image, height image)
  end.

(** What a call of [CameraCapture.get_color_at_center] produces. *)
Inductive CenterResult : Type :=
| NoFrame                    (* [read_frame] gave [None]: returns [None] *)
| CenterError                (* [int(nan)] raises ValueError *)
| CenterColor (c : RGB).

(** [CameraCapture.get_color_at_center(radius)], as a function of the frame
    that [read_frame] returns.  The window is [y_min:y_max, x_min:x_max]
    with exclusive upper bounds [center + radius]; the mean of an empty
    window is nan, on which [int] raises. *)
Definition get_color_at_center (frame : option Image) (radius : Z)
  : CenterResult :=
  match frame with
  | None => NoFrame
  | Some frame =>
      let center_x := width frame / 2 in
      let center_y := height frame / 2 in
      let y_min := Z.max 0 (center_y - radius) in
      let y_max := Z.min (height frame) (center_y + radius) in
      let x_min := Z.max 0 (center_x - radius) in
      let x_max := Z.min (width frame) (center_x + radius) in
      let region :=
        region_pixels frame (slice (height frame) y_min y_max)
                            (slice (width frame) x_min x_max) in
      match region with
      | [] => CenterError
      | _ =>
          CenterColor (mean_channel red region, mean_channel green region,
                       mean_channel blue region)
      end
  end.

End ColorDetector.

(* ================================================================== *)
(** * core/color_converter.py: harmonies                               *)
(* ================================================================== *)

Definition get_complementary_color (r g b : Z) : RGB :=
  (255 - r, 255 - g, 255 - b).

(** The loop shared by the three harmony functions:
    [for offset in offsets: colors.append(hsv_to_rgb((h + offset) % 360, s, v))]. *)
Definition rotate_hues (offsets : list Z) (r g b : Z) : list RGB :=
  let '(h, s, v) := rgb_to_hsv r g b in
  map (fun offset => hsv_to_rgb ((h + offset) mod 360) s v) offsets.

Definition get_triadic_colors (r g b : Z) : list RGB :=
  rotate_hues [120; 240] r g b.

Definition get_analogous_colors (r g b : Z) : list RGB :=
  rotate_hues [-30; 30] r g b.

Definition get_split_complementary (r g b : Z) : list RGB :=
  rotate_hues [150; 210] r g b.

(* ================================================================== *)
(** * ui/app.py: the callers of the converter and of the matcher       *)
(* ================================================================== *)

Module App.

(** [ColorDetectionApp._hex_to_rgb]: as [hex_to_rgb], without the
    three-digit expansion. *)
Definition _hex_to_rgb (hex_color : string) : option RGB :=
  let hex_color := Py.lstrip "#" hex_color in
  match Py.int16 (Py.slice2 0 hex_color) with
  | Some r =>
      match Py.int16 (Py.slice2 2 hex_color) with
      | Some g =>
          match Py.int16 (Py.slice2 4 hex_color) with
          | Some b => Some (r, g, b)
          | None => None
          end
      | None => None
      end
  | None => None
  end.

(** An element of [color_history] and of [favorite_colors]. *)
Record Entry : Type := {
  e_rgb : RGB;
  e_hex : string;
  e_name : string
}.

Definition max_history : nat := 20.

(** [_add_to_history(rgb)]: the new value of [self.color_history]; [None]
    when the matcher's query raises. *)
Definition _add_to_history (matcher : ColorMatcher.t)
    (color_history : list Entry) (rgb : RGB) : option (list Entry) :=
  let '(r, g, b) := rgb in
  let hex_c := rgb_to_hex r g b in
  match ColorMatcher.find_closest_color matcher r g b 1 with
  | None => None
  | Some m =>
      let entry := {| e_rgb := rgb; e_hex := hex_c;
                      e_name := ColorMatcher.name m |} in
      let kept :=
        filter (fun c => negb (String.eqb (e_hex c) hex_c)) color_history in
      Some (firstn max_history (entry :: kept))
  end.

(** [_add_to_favorites]: the new value of [self.favorite_colors];
    [current_color] is [None] before the first colour is picked. *)
Definition _add_to_favorites (current_color : option Entry)
    (favorite_colors : list Entry) : list Entry :=
  match current_color with
  | None => favorite_colors
  | Some entry =>
      if existsb (fun f => String.eqb (e_hex f) (e_hex entry)) favorite_colors
      then favorite_colors
      else favorite_colors ++ [entry]
  end.

(** [_delete_favorite] and [_delete_favorite_inline] *)
Definition _delete_favorite (color : Entry) (favorite_colors : list Entry)
  : list Entry :=
  filter (fun f => negb (String.eqb (e_hex f) (e_hex color))) favorite_colors.

End App.

(* ================================================================== *)
(** * Definitions used to state and check the properties               *)
(* ================================================================== *)

(** Bounded universal quantification over [lo, lo + n), decided by
    evaluation. *)
Fixpoint all_from (n : nat) (lo : Z) (P : Z -> bool) : bool :=
  match n with
  | O => true
  | S n' => P lo && all_from n' (lo + 1) P
  end.

Definition all_bytes (P : Z -> bool) : bool := all_from 256 0 P.

(** The order of binary64 numbers, read off their decoded form: every
    number that is not a nan is ranked by a triple compared
    lexicographically. *)
Definition sf_is_nan (x : spec_float) : bool :=
  match x with S754_nan => true | _ => false end.

Definition sf_rank (x : spec_float) : Z * Z * Z :=
  match x with
  | S754_zero _ => (0, 0, 0)
  | S754_infinity s => (if s then -2 else 2, 0, 0)
  | S754_nan => (0, 0, 0)
  | S754_finite s m e => if s then (-1, - e, - Zpos m) else (1, e, Zpos m)
  end.

Definition lex3 (a b : Z * Z * Z) : comparison :=
  let '(a1, a2, a3) := a in
  let '(b1, b2, b3) := b in
  match a1 ?= b1 with
  | Eq => match a2 ?= b2 with Eq => a3 ?= b3 | c => c end
  | c => c
  end.


(** ** Hex codes *)

Definition is_upper_hex (c : ascii) : bool :=
  let n := nat_of_ascii c in
  orb (andb (Nat.leb 48 n) (Nat.leb n 57)) (andb (Nat.leb 65 n) (Nat.leb n 70)).

(** ['#'] followed by exactly six uppercase hexadecimal digits. *)
Definition is_hex_code (s : string) : bool :=
  match s with
  | String "#" (String a (String b (String c (String d (String e (String f EmptyString)))))) =>
      is_upper_hex a && is_upper_hex b && is_upper_hex c && is_upper_hex d
      && is_upper_hex e && is_upper_hex f
  | _ => false
  end.

Definition byte_field_ok (n : Z) : bool :=
  match Py.upper (Py.format_02x n) with
  | String a (String b EmptyString) =>
      is_upper_hex a && is_upper_hex b &&
      match Py.int16 (String a (String b EmptyString)) with
      | Some m => m =? n
      | None => false
      end
  | _ => false
  end.


(** ** Colours whose components are bytes *)

Definition byte_rgb (c : RGB) : Prop :=
  let '(r, g, b) := c in in_byte r /\ in_byte g /\ in_byte b.

(** ** Round trips through the lossy models *)

Definition hsv_roundtrip (p : RGB) : RGB :=
  let '(r, g, b) := p in
  let '(h, s, v) := rgb_to_hsv r g b in hsv_to_rgb h s v.





(** The ink fraction [1 - x / 255] of one channel. *)
Definition cmyk_frac (x : Z) : float := (1 - Py.Z2F x / 255)%float.




(** ** Sampling *)

(** A two-pixel column and a two-pixel row, used as test buffers. *)
Definition column_image : ColorDetector.Image :=
  {| ColorDetector.height := 2;
     ColorDetector.width := 1;
     ColorDetector.pixel := fun row _ =>
       if row =? 0 then (10, 20, 30) else (50, 60, 70) |}.

Definition row_image : ColorDetector.Image :=
  {| ColorDetector.height := 1;
     ColorDetector.width := 2;
     ColorDetector.pixel := fun _ col =>
       if col =? 0 then (0, 0, 0) else (255, 255, 255) |}.

(** The pixels of the square [x - radius, x + radius] x
    [y - radius, y + radius] that lie inside the image, row by row. *)
Definition box_pixels (image : ColorDetector.Image) (x y radius : Z) : list RGB :=
  ColorDetector.region_pixels image
    (filter (fun i => (y - radius <=? i) && (i <=? y + radius))
            (ColorDetector.zrange 0 (ColorDetector.height image)))
    (filter (fun j => (x - radius <=? j) && (j <=? x + radius))
            (ColorDetector.zrange 0 (ColorDetector.width image))).

Definition mean_exact_ok (n : Z) : bool :=
  Py.int_of_float (Py.Z2F (n + 0) / Py.Z2F (Z.of_nat 1)) =? n.

(** ** Order of the extracted colours *)

(** Each element paired with its position, as [enumerate] does. *)
Definition enumerate {A : Type} (l : list A) : list (nat * A) :=
  combine (seq 0 (List.length l)) l.

Definition tagged_percentage (e : nat * ColorDetector.DominantColor) : float :=
  ColorDetector.percentage (snd e).

(** [a] may stand before [b] in the output: its percentage is not smaller,
    and on equal percentages its original index is smaller. *)
Definition stands_before (a b : nat * ColorDetector.DominantColor) : Prop :=
  (tagged_percentage b <=? tagged_percentage a)%float = true /\
  ((tagged_percentage a =? tagged_percentage b)%float = true ->
   (fst a < fst b)%nat).

Definition is_number (e : ColorDetector.DominantColor) : Prop :=
  is_nan (ColorDetector.percentage e) = false.

(** A [KMeans.fit] that ignores its input, used to run the extractor on a
    known clustering: four centres, ten labels with counts 2, 3, 2, 3. *)
Definition KMeans_fixed (n_clusters random_state n_init : Z)
    (X : list ColorDetector.Point) : option (list ColorDetector.Point * list Z) :=
  Some ([ (10, 10, 10); (20, 20, 20); (30, 30, 30); (40, 40, 40) ]%float,
        [0; 1; 1; 2; 0; 3; 1; 3; 2; 3]).

(* ================================================================== *)
(** * Auxiliary definitions for the converter, the matcher and the UI  *)
(* ================================================================== *)

(** ** Characters and short strings, for the parser's tables *)

Definition char_of (n : Z) : ascii := ascii_of_nat (Z.to_nat n).

(** A property of every character, decided by evaluation. *)
Definition all_chars (P : ascii -> bool) : bool :=
  all_bytes (fun n => P (char_of n)).

Definition option_in (lo hi : Z) (o : option Z) : bool :=
  match o with
  | Some v => (lo <=? v) && (v <=? hi)
  | None => true
  end.

Definition doubled_digit_ok (a : ascii) : bool :=
  match Py.hex_value a with
  | Some v =>
      match Py.int16 (String a (String a EmptyString)) with
      | Some w => (w =? 17 * v) && negb (Ascii.eqb a "#")
      | None => false
      end
  | None => true
  end.

Definition lower_field_ok (n : Z) : bool :=
  match Py.lower (Py.upper (Py.format_02x n)) with
  | String a (String b EmptyString) =>
      negb (Ascii.eqb a "#") &&
      match Py.int16 (String a (String b EmptyString)) with
      | Some m => m =? n
      | None => false
      end
  | _ => false
  end.

(** The ordinal of a rating: 0 for the failing one, 3 for the best. *)
Definition rating_level (rating : string) : nat :=
  if String.eqb rating "AAA (Excellent)" then 3
  else if String.eqb rating "AA (Good)" then 2
  else if String.eqb rating "AA Large (Acceptable)" then 1
  else 0.

Definition percent (n : Z) : Prop := 0 <= n <= 100.

(** The ink of channel [x] when the largest channel is [top], as
    [rgb_to_cmyk] computes it, and the black component. *)
Definition cmyk_ink (x top : Z) : Z :=
  let k := cmyk_frac top in
  Py.int_of_float ((cmyk_frac x - k) / (1 - k) * 100).

Definition cmyk_black (top : Z) : Z := Py.int_of_float (cmyk_frac top * 100).

Definition cmyk_ink_ok (x top : Z) : bool :=
  if (x <=? top) && (1 <=? top)
  then (0 <=? cmyk_ink x top) && (cmyk_ink x top <=? 100)
       && (cmyk_ink top top =? 0)
       && (0 <=? cmyk_black top) && (cmyk_black top <=? 99)
  else true.

(** One channel of [cmyk_to_rgb]. *)
Definition cmyk_back (c k : Z) : Z :=
  Py.int_of_float (255 * (1 - Py.Z2F c / 100) * (1 - Py.Z2F k / 100)).

Definition cmyk_back_ok (c k : Z) : bool :=
  (0 <=? cmyk_back c k) && (cmyk_back c k <=? 255)
  && (cmyk_back c 100 =? 0) && (cmyk_back 0 0 =? 255).

Definition rgb_eqb (p q : RGB) : bool :=
  let '(r, g, b) := p in
  let '(r', g', b') := q in
  (r =? r') && (g =? g') && (b =? b').

Definition gray_harmony_ok (n : Z) : bool :=
  let c := hsv_roundtrip (n, n, n) in
  let same := fun l =>
    match l with
    | [a; b] => rgb_eqb a c && rgb_eqb b c
    | _ => false
    end in
  same (get_triadic_colors n n n) && same (get_analogous_colors n n n)
  && same (get_split_complementary n n n)
  && (fst (fst (rgb_to_hsv n n n)) =? 0) && (snd (fst (rgb_to_hsv n n n)) =? 0)
  && (fst (fst (rgb_to_hsl n n n)) =? 0) && (snd (fst (rgb_to_hsl n n n)) =? 0).

(** A property of every percentage, decided by evaluation. *)
Definition all_percent (P : Z -> bool) : bool := all_from 101 0 P.

(** ** The matcher *)

(** The JSON record that lists all three keys of an entry. *)
Definition json_of (e : ColorMatcher.NamedColor) : ColorMatcher.JsonColor :=
  {| ColorMatcher.j_rgb := Some (ColorMatcher.nc_rgb e);
     ColorMatcher.j_name := Some (ColorMatcher.nc_name e);
     ColorMatcher.j_hex := Some (ColorMatcher.nc_hex e) |}.

(** The instance whose three lists hold the fields of [es]. *)
Definition palette_of (es : list ColorMatcher.NamedColor) : ColorMatcher.t :=
  {| ColorMatcher.colors := map ColorMatcher.nc_rgb es;
     ColorMatcher.color_names := map ColorMatcher.nc_name es;
     ColorMatcher.color_hex := map ColorMatcher.nc_hex es |}.

(** The three lists have one length and are not empty. *)
Definition well_formed (self : ColorMatcher.t) : Prop :=
  ColorMatcher.colors self <> [] /\
  List.length (ColorMatcher.color_names self) = List.length (ColorMatcher.colors self) /\
  List.length (ColorMatcher.color_hex self) = List.length (ColorMatcher.colors self).

(** The reported distance and confidence of a neighbour at squared
    distance [d2]. *)
Definition distance_of (d2 : Z) : float := PrimFloat.sqrt (Py.Z2F d2).

Definition confidence_of (d2 : Z) : float :=
  Py.round1 (ColorMatcher.raw_confidence (distance_of d2)).

(** [R] holds between [prev] and [f lo], and between each of the [n]
    values [f lo], [f (lo + 1)], ... and the next. *)
Fixpoint chain_from (R : float -> float -> bool) (f : Z -> float) (n : nat)
    (lo : Z) (prev : float) : bool :=
  match n with
  | O => true
  | S n' => let y := f lo in R prev y && chain_from R f n' (lo + 1) y
  end.

Definition geb (x y : float) : bool := (y <=? x)%float.

(** The largest squared distance between two byte triples. *)
Definition max_dist2 : Z := 195075.

Definition near (a b : nat * Z) : Prop := snd a <= snd b.


(** ** The detector *)

(** The pixels of rows [y_lo .. y_hi] and columns [x_lo .. x_hi] (bounds
    included) that lie inside the image, row by row. *)
Definition window_pixels (image : ColorDetector.Image) (x_lo x_hi y_lo y_hi : Z)
  : list RGB :=
  ColorDetector.region_pixels image
    (filter (fun i => (y_lo <=? i) && (i <=? y_hi))
            (ColorDetector.zrange 0 (ColorDetector.height image)))
    (filter (fun j => (x_lo <=? j) && (j <=? x_hi))
            (ColorDetector.zrange 0 (ColorDetector.width image))).

(** The sum of a list of integers. *)
Definition total (l : list Z) : Z := fold_right Z.add 0 l.

(** The sample that is clustered: the drawn pixels when the image has more
    than [sample_size] of them, all of them otherwise. *)
Definition clustered (image : ColorDetector.Image) (sample_size : Z)
    (draw : list Z) : list RGB :=
  let pixels := ColorDetector.reshape_pixels image in
  if sample_size <? Z.of_nat (List.length pixels)
  then ColorDetector.take_indices pixels draw else pixels.

(** ** The UI *)

(** The test of the list comprehensions that drop the entries of one hex
    code: [c["hex"] != hex_c]. *)
Definition other_hex (hex_c : string) (c : App.Entry) : bool :=
  negb (String.eqb (App.e_hex c) hex_c).

(* ================================================================== *)
(** * Facts about the comparison of floats                             *)
(* ================================================================== *)

Lemma SFcompare_rank x y :
  sf_is_nan x = false -> sf_is_nan y = false ->
  SFcompare x y = Some (lex3 (sf_rank x) (sf_rank y)).
Proof.
  destruct x as [sx|sx| |sx mx ex], y as [sy|sy| |sy my ey]; simpl; intros; try discriminate;
   try (destruct sx; reflexivity); try (destruct sy; reflexivity);
    try (destruct sx, sy; reflexivity).
  change (PosDef.Pos.compare_cont Eq mx my) with (Pos.compare mx my).
  destruct sx, sy; simpl; try reflexivity.
  - destruct (Z.compare_spec ex ey), (Z.compare_spec (- ex) (- ey));
      try reflexivity; lia.
Qed.

Ltac lex3_cases :=
  unfold lex3;
  repeat match goal with
         | p : (Z * Z * Z)%type |- _ => destruct p as [[? ?] ?]
         end;
  repeat match goal with
         | |- context [?a ?= ?b] => destruct (Z.compare_spec a b)
         | H : context [?a ?= ?b] |- _ => destruct (Z.compare_spec a b)
         end.

Lemma lex3_asym a b : lex3 a b = Lt -> lex3 b a = Gt.
Proof. lex3_cases; intros; try discriminate; try reflexivity; lia. Qed.

Lemma lex3_negtrans a b c : lex3 a b <> Lt -> lex3 b c <> Lt -> lex3 a c <> Lt.
Proof. lex3_cases; intros; try congruence; try lia. Qed.

Lemma lex3_flip a b : lex3 b a = CompOpp (lex3 a b).
Proof. lex3_cases; intros; try reflexivity; try lia. Qed.

Lemma Prim2SF_nan x : sf_is_nan (Prim2SF x) = is_nan x.
Proof.
  unfold is_nan. rewrite FloatAxioms.eqb_spec. unfold SFeqb.
  destruct (Prim2SF x) as [s|s| |s m e]; simpl; try reflexivity.
  - destruct s; reflexivity.
  - change (PosDef.Pos.compare_cont Eq m m) with (Pos.compare m m).
    destruct s; rewrite Z.compare_refl, Pos.compare_refl; reflexivity.
Qed.

Lemma ltb_rank x y :
  is_nan x = false -> is_nan y = false ->
  (x <? y)%float = match lex3 (sf_rank (Prim2SF x)) (sf_rank (Prim2SF y)) with Lt => true | _ => false end.
Proof.
  intros Hx Hy. rewrite FloatAxioms.ltb_spec. unfold SFltb.
  rewrite SFcompare_rank by (rewrite Prim2SF_nan; assumption). reflexivity.
Qed.

Lemma leb_rank x y :
  is_nan x = false -> is_nan y = false ->
  (x <=? y)%float = match lex3 (sf_rank (Prim2SF x)) (sf_rank (Prim2SF y)) with Gt => false | _ => true end.
Proof.
  intros Hx Hy. rewrite FloatAxioms.leb_spec. unfold SFleb.
  rewrite SFcompare_rank by (rewrite Prim2SF_nan; assumption).
  destruct lex3; reflexivity.
Qed.

Lemma eqb_rank x y :
  is_nan x = false -> is_nan y = false ->
  (x =? y)%float = match lex3 (sf_rank (Prim2SF x)) (sf_rank (Prim2SF y)) with Eq => true | _ => false end.
Proof.
  intros Hx Hy. rewrite FloatAxioms.eqb_spec. unfold SFeqb.
  rewrite SFcompare_rank by (rewrite Prim2SF_nan; assumption). reflexivity.
Qed.

Lemma ltb_nan_l x y : is_nan x = true -> (x <? y)%float = false.
Proof.
  intros H. rewrite FloatAxioms.ltb_spec. rewrite <- Prim2SF_nan in H.
  destruct (Prim2SF x); try discriminate. reflexivity.
Qed.

Lemma ltb_nan_r x y : is_nan y = true -> (x <? y)%float = false.
Proof.
  intros H. rewrite FloatAxioms.ltb_spec. rewrite <- Prim2SF_nan in H.
  destruct (Prim2SF y); try discriminate. destruct (Prim2SF x); reflexivity.
Qed.

Lemma leb_true_not_nan x y : (x <=? y)%float = true -> is_nan x = false /\ is_nan y = false.
Proof.
  rewrite FloatAxioms.leb_spec, <- !Prim2SF_nan. unfold SFleb.
  destruct (Prim2SF x), (Prim2SF y); simpl; intros; try discriminate; auto.
Qed.

Lemma ltb_true_not_nan x y : (x <? y)%float = true -> is_nan x = false /\ is_nan y = false.
Proof.
  rewrite FloatAxioms.ltb_spec, <- !Prim2SF_nan. unfold SFltb.
  destruct (Prim2SF x), (Prim2SF y); simpl; intros; try discriminate; auto.
Qed.

Lemma ltb_asym x y : (x <? y)%float = true -> (y <? x)%float = false.
Proof.
  intros H. destruct (ltb_true_not_nan _ _ H) as [Hx Hy].
  rewrite ltb_rank in * by assumption.
  rewrite lex3_flip. destruct lex3; simpl; congruence.
Qed.

Lemma ltb_negtrans x y z :
  is_nan y = false ->
  (x <? y)%float = false -> (y <? z)%float = false -> (x <? z)%float = false.
Proof.
  intros Hy Hxy Hyz.
  destruct (is_nan x) eqn:Hx; [apply ltb_nan_l; assumption|].
  destruct (is_nan z) eqn:Hz; [apply ltb_nan_r; assumption|].
  rewrite ltb_rank in * by assumption.
  pose proof (lex3_negtrans (sf_rank (Prim2SF x)) (sf_rank (Prim2SF y)) (sf_rank (Prim2SF z))) as T.
  destruct (lex3 (sf_rank (Prim2SF x)) (sf_rank (Prim2SF y))); try discriminate;
  destruct (lex3 (sf_rank (Prim2SF y)) (sf_rank (Prim2SF z))); try discriminate;
  destruct (lex3 (sf_rank (Prim2SF x)) (sf_rank (Prim2SF z))); try reflexivity;
  exfalso; apply T; congruence.
Qed.

Lemma leb_ltb x y :
  is_nan x = false -> is_nan y = false -> (x <=? y)%float = negb (y <? x)%float.
Proof.
  intros Hx Hy. rewrite leb_rank, ltb_rank by assumption.
  rewrite (lex3_flip (sf_rank (Prim2SF x))). destruct lex3; reflexivity.
Qed.

Lemma eqb_ltb x y :
  is_nan x = false -> is_nan y = false ->
  (x =? y)%float = negb (x <? y)%float && negb (y <? x)%float.
Proof.
  intros Hx Hy. rewrite eqb_rank, !ltb_rank by assumption.
  rewrite (lex3_flip (sf_rank (Prim2SF x))). destruct lex3; reflexivity.
Qed.

Lemma leb_false_ltb a x :
  is_nan a = false -> is_nan x = false ->
  (a <=? x)%float = false -> (x <? a)%float = true.
Proof.
  intros Ha Hx H. rewrite (leb_ltb a x Ha Hx) in H.
  now apply negb_false_iff in H.
Qed.

Lemma ltb_leb_false a x :
  (x <? a)%float = true -> (a <=? x)%float = false.
Proof.
  intros H. destruct (ltb_true_not_nan _ _ H) as [Hx Ha].
  rewrite (leb_ltb a x Ha Hx), H. reflexivity.
Qed.

Lemma leb_trans_const a b x :
  (a <=? b)%float = true -> (b <=? x)%float = true -> (a <=? x)%float = true.
Proof.
  intros Hab Hbx.
  destruct (leb_true_not_nan _ _ Hab) as [Ha Hb].
  destruct (leb_true_not_nan _ _ Hbx) as [_ Hx].
  rewrite leb_ltb in * by assumption.
  apply negb_true_iff. apply negb_true_iff in Hab, Hbx.
  apply (ltb_negtrans x b a); assumption.
Qed.

Lemma leb_of_not_ltb x y :
  is_nan x = false -> is_nan y = false ->
  (x <? y)%float = false -> (y <=? x)%float = true.
Proof.
  intros Hx Hy H. rewrite (leb_ltb y x Hy Hx), H. reflexivity.
Qed.

(** ** Checking a property on every value of a range *)

Lemma all_from_spec n : forall lo P,
  all_from n lo P = true -> forall i, lo <= i < lo + Z.of_nat n -> P i = true.
Proof.
  induction n as [|n IH]; intros lo P H i Hi.
  - simpl in Hi. lia.
  - simpl in H. apply andb_true_iff in H as [H0 H1].
    destruct (Z.eq_dec i lo) as [->|Hne]; [assumption|].
    apply (IH (lo + 1) P H1). lia.
Qed.

Lemma all_bytes_spec P :
  all_bytes P = true -> forall n, in_byte n -> P n = true.
Proof.
  intros H n Hn. apply (all_from_spec 256 0 P H). unfold in_byte in Hn. lia.
Qed.

(* ================================================================== *)
(** * RGB and HEX                                                       *)
(* ================================================================== *)

Lemma upper_app s1 s2 : Py.upper (s1 ++ s2) = (Py.upper s1 ++ Py.upper s2)%string.
Proof. induction s1 as [|c s1 IH]; simpl; [reflexivity | now rewrite IH]. Qed.

Lemma byte_field n :
  in_byte n ->
  exists a b, Py.upper (Py.format_02x n) = String a (String b EmptyString)
    /\ is_upper_hex a = true /\ is_upper_hex b = true
    /\ Py.int16 (String a (String b EmptyString)) = Some n.
Proof.
  intros Hn.
  assert (H : byte_field_ok n = true).
  { apply all_bytes_spec; [vm_compute; reflexivity | assumption]. }
  unfold byte_field_ok in H.
  destruct (Py.upper (Py.format_02x n)) as [|a [|b [|]]]; try discriminate.
  apply andb_true_iff in H as [H H3]. apply andb_true_iff in H as [H1 H2].
  exists a, b. repeat split; try assumption.
  destruct (Py.int16 (String a (String b ""))) as [m|]; [|discriminate].
  apply Z.eqb_eq in H3. now subst.
Qed.

Lemma upper_hex_not_hash c : is_upper_hex c = true -> Ascii.eqb c "#" = false.
Proof.
  intros H. destruct (Ascii.eqb_spec c "#") as [->|]; [|reflexivity].
  vm_compute in H. discriminate.
Qed.

Lemma lstrip_hash c rest :
  is_upper_hex c = true -> Py.lstrip "#" (String "#" (String c rest)) = String c rest.
Proof.
  intros H. cbn [Py.lstrip]. change (Ascii.eqb "#" "#") with true. cbn iota.
  now rewrite (upper_hex_not_hash c H).
Qed.

Lemma rgb_to_hex_digits (r g b : Z) :
  in_byte r -> in_byte g -> in_byte b ->
  exists r1 r2 g1 g2 b1 b2,
    rgb_to_hex r g b =
      String "#" (String r1 (String r2 (String g1 (String g2 (String b1 (String b2 EmptyString))))))
    /\ is_upper_hex r1 = true /\ is_upper_hex r2 = true
    /\ is_upper_hex g1 = true /\ is_upper_hex g2 = true
    /\ is_upper_hex b1 = true /\ is_upper_hex b2 = true
    /\ Py.int16 (String r1 (String r2 EmptyString)) = Some r
    /\ Py.int16 (String g1 (String g2 EmptyString)) = Some g
    /\ Py.int16 (String b1 (String b2 EmptyString)) = Some b.
Proof.
  intros Hr Hg Hb.
  destruct (byte_field r Hr) as (r1 & r2 & Er & Hr1 & Hr2 & Ir).
  destruct (byte_field g Hg) as (g1 & g2 & Eg & Hg1 & Hg2 & Ig).
  destruct (byte_field b Hb) as (b1 & b2 & Eb & Hb1 & Hb2 & Ib).
  exists r1, r2, g1, g2, b1, b2.
  unfold rgb_to_hex. rewrite !upper_app, Er, Eg, Eb.
  repeat split; assumption || reflexivity.
Qed.

(** C1.  For every RGB triple with components in [0, 255], [rgb_to_hex]
    yields ['#'] followed by six uppercase hexadecimal digits, and
    [hex_to_rgb] parses that string back to the same triple. *)
Theorem rgb_hex_roundtrip (r g b : Z) :
  in_byte r -> in_byte g -> in_byte b ->
  is_hex_code (rgb_to_hex r g b) = true /\
  hex_to_rgb (rgb_to_hex r g b) = Some (r, g, b).
Proof.
  intros Hr Hg Hb.
  destruct (rgb_to_hex_digits r g b Hr Hg Hb)
    as (r1 & r2 & g1 & g2 & b1 & b2 & E & Hr1 & Hr2 & Hg1 & Hg2 & Hb1 & Hb2 & Ir & Ig & Ib).
  rewrite E. split.
  - cbn [is_hex_code]. rewrite Hr1, Hr2, Hg1, Hg2, Hb1, Hb2. reflexivity.
  - unfold hex_to_rgb. rewrite (lstrip_hash r1 _ Hr1).
    cbn [String.length Nat.eqb Py.slice2 substring].
    rewrite Ir, Ig, Ib. reflexivity.
Qed.

Lemma rgb_hex_roundtrip_witness :
  is_hex_code (rgb_to_hex 255 165 0) = true /\
  hex_to_rgb (rgb_to_hex 255 165 0) = Some (255, 165, 0).
Proof. apply rgb_hex_roundtrip; unfold in_byte; lia. Defined.

(* ================================================================== *)
(** * Round trips through HSV, HSL and CMYK                             *)
(* ================================================================== *)




Lemma cmyk_frac_order_table :
  all_bytes (fun x => all_bytes (fun y =>
    Bool.eqb (cmyk_frac x <? cmyk_frac y)%float (y <? x))) = true.
Proof. vm_compute. reflexivity. Qed.

Lemma cmyk_frac_order x y :
  in_byte x -> in_byte y -> (cmyk_frac x <? cmyk_frac y)%float = (y <? x).
Proof.
  intros Hx Hy.
  pose proof (all_bytes_spec _ cmyk_frac_order_table x Hx) as H.
  cbv beta in H. pose proof (all_bytes_spec _ H y Hy) as H'.
  cbv beta in H'. now apply Bool.eqb_prop in H'.
Qed.

Lemma cmyk_frac_not_one_table :
  all_from 255 1 (fun x => negb (cmyk_frac x =? 1)%float) = true.
Proof. vm_compute. reflexivity. Qed.

Lemma cmyk_frac_not_one x :
  1 <= x <= 255 -> (cmyk_frac x =? 1)%float = false.
Proof.
  intros H. apply negb_true_iff.
  apply (all_from_spec 255 1 _ cmyk_frac_not_one_table). lia.
Qed.







(* ================================================================== *)
(** * Construction of the matcher                                      *)
(* ================================================================== *)

Import ColorMatcher.



(* ================================================================== *)
(** * WCAG rating                                                      *)
(* ================================================================== *)

(** C5, counterexample.  The rating of 7.0 is not the bare string ["AAA"]:
    the function returns labelled strings. *)
Lemma get_wcag_rating_not_bare_AAA : get_wcag_rating 7 <> "AAA".
Proof. vm_compute. discriminate. Qed.

(** C5, as amended.  [get_wcag_rating x] is [AAA (Excellent)] iff [x >= 7],
    [AA (Good)] iff [4.5 <= x < 7], [AA Large (Acceptable)] iff
    [3 <= x < 4.5], and [Fail (Poor)] otherwise; the lower bounds are
    inclusive, 7.0 rates AAA, 4.5 rates AA and 4.49 rates AA Large. *)
Theorem get_wcag_rating_thresholds (x : float) :
  (get_wcag_rating x = "AAA (Excellent)" <-> (7 <=? x)%float = true) /\
  (get_wcag_rating x = "AA (Good)" <->
     (4.5 <=? x)%float = true /\ (x <? 7)%float = true) /\
  (get_wcag_rating x = "AA Large (Acceptable)" <->
     (3 <=? x)%float = true /\ (x <? 4.5)%float = true) /\
  (get_wcag_rating x = "Fail (Poor)" <-> (3 <=? x)%float = false) /\
  get_wcag_rating 7 = "AAA (Excellent)" /\
  get_wcag_rating 4.5 = "AA (Good)" /\
  get_wcag_rating 4.49 = "AA Large (Acceptable)".
Proof.
  assert (N7 : is_nan 7 = false) by reflexivity.
  assert (N45 : is_nan 4.5 = false) by reflexivity.
  assert (L1 : (4.5 <=? 7)%float = true) by reflexivity.
  assert (L2 : (3 <=? 4.5)%float = true) by reflexivity.
  unfold get_wcag_rating.
  destruct (7 <=? x)%float eqn:E7.
  { pose proof (leb_trans_const 4.5 7 x L1 E7) as E45.
    pose proof (leb_trans_const 3 4.5 x L2 E45) as E3.
    pose proof (proj2 (leb_true_not_nan _ _ E7)) as Nx.
    assert (F7 : (x <? 7)%float = false).
    { rewrite (leb_ltb 7 x N7 Nx) in E7. now apply negb_true_iff in E7. }
    assert (F45 : (x <? 4.5)%float = false).
    { rewrite (leb_ltb 4.5 x N45 Nx) in E45. now apply negb_true_iff in E45. }
    rewrite E3, F7, F45.
    repeat split; intros; try discriminate; try tauto; try reflexivity;
      try (destruct H; discriminate). }
  destruct (4.5 <=? x)%float eqn:E45.
  { pose proof (leb_trans_const 3 4.5 x L2 E45) as E3.
    pose proof (proj2 (leb_true_not_nan _ _ E45)) as Nx.
    pose proof (leb_false_ltb 7 x N7 Nx E7) as T7.
    assert (F45 : (x <? 4.5)%float = false).
    { rewrite (leb_ltb 4.5 x N45 Nx) in E45. now apply negb_true_iff in E45. }
    rewrite E3, T7, F45.
    repeat split; intros; try discriminate; try tauto; try reflexivity;
      try (destruct H; discriminate). }
  destruct (3 <=? x)%float eqn:E3.
  { pose proof (proj2 (leb_true_not_nan _ _ E3)) as Nx.
    pose proof (leb_false_ltb 4.5 x N45 Nx E45) as T45.
    rewrite T45.
    repeat split; intros; try discriminate; try tauto; try reflexivity;
      try (destruct H; discriminate). }
  repeat split; intros; try discriminate; try tauto; try reflexivity;
      try (destruct H; discriminate).
Qed.


(* ================================================================== *)
(** * Nearest named colour                                             *)
(* ================================================================== *)

Lemma nearest_from_spec q pts : forall i best,
  let res := nearest_from q pts i best in
  snd res <= snd best /\
  (forall k, (k < List.length pts)%nat -> snd res <= dist2 q (nth k pts (0, 0, 0))) /\
  (res = best \/
   exists k, (k < List.length pts)%nat /\ fst res = (i + k)%nat /\
             snd res = dist2 q (nth k pts (0, 0, 0))).
Proof.
  induction pts as [|p pts IH]; intros i best; cbn [nearest_from List.length].
  - cbn zeta. split; [lia|]. split; [intros k Hk; inversion Hk | now left].
  - set (best' := if dist2 q p <? snd best then (i, dist2 q p) else best).
    specialize (IH (S i) best'). cbn zeta in IH |- *.
    destruct IH as (Hle & Hall & Hor).
    assert (Hb : snd best' <= snd best /\ snd best' <= dist2 q p).
    { subst best'. destruct (Z.ltb_spec (dist2 q p) (snd best)); cbn; lia. }
    split; [lia|]. split.
    + intros [|k] Hk; cbn [nth]; [lia|]. apply Hall. lia.
    + destruct Hor as [Hor | (k & Hk & Hf & Hs)].
      * rewrite Hor. subst best'.
        destruct (Z.ltb_spec (dist2 q p) (snd best)); [|now left].
        right. exists O. cbn. repeat split; lia.
      * right. exists (S k). cbn [nth]. repeat split; lia.
Qed.

(** The scan returns the index of a point at minimal distance. *)
Lemma query_nearest pts q idx d2 :
  query pts q = Some (idx, d2) ->
  (idx < List.length pts)%nat /\
  d2 = dist2 q (nth idx pts (0, 0, 0)) /\
  forall k, (k < List.length pts)%nat -> d2 <= dist2 q (nth k pts (0, 0, 0)).
Proof.
  destruct pts as [|p pts]; cbn [query]; [discriminate|].
  intros H. injection H as H.
  pose proof (nearest_from_spec q pts 1 (O, dist2 q p)) as S. cbn zeta in S.
  rewrite H in S. cbn [fst snd] in S. destruct S as (Hle & Hall & Hor).
  cbn [List.length]. split; [|split].
  - destruct Hor as [Hor | (k & Hk & Hf & _)]; [injection Hor as -> _; lia | lia].
  - destruct Hor as [Hor | (k & Hk & Hf & Hs)].
    + injection Hor as -> ->. reflexivity.
    + subst idx. cbn [Nat.add nth]. exact Hs.
  - intros [|k] Hk; cbn [nth]; [exact Hle | apply Hall; lia].
Qed.

Lemma square_bound a : -255 <= a <= 255 -> 0 <= a * a <= 65025.
Proof. intros H. nia. Qed.

Lemma dist2_range p q :
  byte_rgb p -> byte_rgb q -> 0 <= dist2 p q <= 195075.
Proof.
  destruct p as [[r1 g1] b1], q as [[r2 g2] b2]. unfold byte_rgb, in_byte, dist2.
  intros (?&?&?) (?&?&?).
  pose proof (square_bound (r1 - r2)). pose proof (square_bound (g1 - g2)).
  pose proof (square_bound (b1 - b2)). lia.
Qed.

Lemma dist2_zero p q : dist2 p q = 0 -> p = q.
Proof.
  destruct p as [[r1 g1] b1], q as [[r2 g2] b2]. unfold dist2. intros H.
  pose proof (Z.square_nonneg (r1 - r2)). pose proof (Z.square_nonneg (g1 - g2)).
  pose proof (Z.square_nonneg (b1 - b2)).
  assert (r1 = r2) by nia. assert (g1 = g2) by nia. assert (b1 = b2) by nia.
  congruence.
Qed.

Lemma dist2_refl p : dist2 p p = 0.
Proof. destruct p as [[r g] b]. unfold dist2. lia. Qed.

Lemma sqrt_table :
  all_from (Z.to_nat 195076) 0 (fun n => (0 <=? PrimFloat.sqrt (Py.Z2F n))%float) = true.
Proof. vm_compute. reflexivity. Qed.

Lemma sqrt_nonneg n :
  0 <= n <= 195075 -> (0 <=? PrimFloat.sqrt (Py.Z2F n))%float = true.
Proof.
  intros H.
  apply (all_from_spec (Z.to_nat 195076) 0 _ sqrt_table).
  rewrite Z2Nat.id; lia.
Qed.

Lemma find_closest_color_inv self r g b res :
  find_closest_color self r g b 1 = Some res ->
  exists idx d2,
    query (colors self) (r, g, b) = Some (idx, d2) /\
    res = {| name := nth idx (color_names self) "";
             hex := nth idx (color_hex self) "";
             rgb := nth idx (colors self) (0, 0, 0);
             input_rgb := (r, g, b);
             distance := PrimFloat.sqrt (Py.Z2F d2);
             confidence := Py.round1 (raw_confidence (PrimFloat.sqrt (Py.Z2F d2))) |}.
Proof.
  unfold find_closest_color.
  destruct ((1 <? 1) || (Z.of_nat (List.length (colors self)) <? 1)); [discriminate|].
  destruct (query (colors self) (r, g, b)) as [[idx d2]|]; [|discriminate].
  intros H. injection H as <-. eauto.
Qed.

Lemma Forall_nth_byte pts k :
  Forall byte_rgb pts -> (k < List.length pts)%nat -> byte_rgb (nth k pts (0, 0, 0)).
Proof.
  intros H Hk. rewrite Forall_forall in H. apply H. now apply nth_In.
Qed.

(** C6, counterexample.  Against the fallback palette the query (1, 0, 0)
    is matched to Black at distance 1; the reported confidence is 99.8, which
    is not [max(0, 1 - distance / 441.67) * 100] = 99.7735...: the method
    rounds the confidence to one decimal. *)
Lemma confidence_is_rounded :
  exists self res,
    __init__ Missing = inr self /\
    find_closest_color self 1 0 0 1 = Some res /\
    name res = "Black" /\ distance res = 1%float /\
    confidence res = 99.8%float /\
    (confidence res =? raw_confidence (distance res))%float = false.
Proof. do 2 eexists. repeat split. Qed.

(** C6, as amended.  For every query and palette over bytes, the result of
    [find_closest_color] has [distance >= 0] and a confidence equal to
    [max(0, 1 - distance / 441.67) * 100] rounded to one decimal, 441.67
    being a literal constant; and a query of (0, 0, 0) against a palette that
    contains (0, 0, 0) under the name Black returns Black with distance 0
    and confidence 100. *)
Theorem find_closest_color_result (self : t) (r g b : Z) (res : MatchResult) :
  Forall byte_rgb (colors self) -> byte_rgb (r, g, b) ->
  find_closest_color self r g b 1 = Some res ->
  (0 <=? distance res)%float = true /\
  confidence res =
    Py.round1 ((let x := (1 - distance res / 441.67)%float in
                if (0 <? x)%float then x else 0%float) * 100)%float /\
  ((r, g, b) = (0, 0, 0) ->
   In (0, 0, 0) (colors self) ->
   (forall i, (i < List.length (colors self))%nat ->
              nth i (colors self) (0, 0, 0) = (0, 0, 0) ->
              nth i (color_names self) "" = "Black") ->
   name res = "Black" /\ distance res = 0%float /\ confidence res = 100%float).
Proof.
  intros Hpal Hq H.
  destruct (find_closest_color_inv _ _ _ _ _ H) as (idx & d2 & Hquery & ->).
  destruct (query_nearest _ _ _ _ Hquery) as (Hidx & Hd2 & Hmin).
  cbn [distance confidence name].
  split; [|split].
  - apply sqrt_nonneg. rewrite Hd2.
    apply dist2_range; [assumption | now apply Forall_nth_byte].
  - reflexivity.
  - intros Hzero Hin Hnames. injection Hzero as -> -> ->.
    assert (Hd0 : d2 = 0).
    { destruct (In_nth (A := RGB) _ _ (0, 0, 0) Hin) as (k & Hk & Ek).
      specialize (Hmin k Hk). rewrite Ek, dist2_refl in Hmin.
      rewrite Hd2 in *.
      pose proof (dist2_range (0, 0, 0) (nth idx (colors self) (0, 0, 0))) as R.
      specialize (R Hq (Forall_nth_byte _ _ Hpal Hidx)). lia. }
    rewrite Hd0 in Hd2. symmetry in Hd2. apply dist2_zero in Hd2. subst d2.
    split; [|split; reflexivity].
    apply Hnames; [assumption | now symmetry].
Qed.

Lemma find_closest_color_result_witness :
  exists res,
    find_closest_color (_use_fallback_colors empty) 0 0 0 1 = Some res /\
    (0 <=? distance res)%float = true /\
    name res = "Black" /\ distance res = 0%float /\ confidence res = 100%float.
Proof.
  eexists. split; [reflexivity|].
  assert (Hpal : Forall byte_rgb (colors (_use_fallback_colors empty))).
  { repeat constructor; unfold in_byte; lia. }
  assert (Hq : byte_rgb (0, 0, 0)) by (repeat constructor; unfold in_byte; lia).
  destruct (find_closest_color_result (_use_fallback_colors empty) 0 0 0 _
              Hpal Hq eq_refl) as (Hd & _ & Hblack).
  split; [exact Hd|].
  apply Hblack.
  - reflexivity.
  - left. reflexivity.
  - intros i Hi Ei.
    do 13 (destruct i as [|i]; [first [reflexivity | discriminate Ei]|]).
    cbn in Hi. lia.
Defined.

(* ================================================================== *)
(** * Colour-blindness simulation stays in range                       *)
(* ================================================================== *)

Lemma digits2_pos_bound m : Zpos m < 2 ^ Zpos (digits2_pos m).
Proof.
  induction m as [m IH|m IH|]; cbn [digits2_pos].
  - rewrite Pos2Z.inj_succ, Z.pow_succ_r by lia. lia.
  - rewrite Pos2Z.inj_succ, Z.pow_succ_r by lia. lia.
  - reflexivity.
Qed.

(** A valid binary64 mantissa has at most 53 bits (2^53 = 9007199254740992). *)
Lemma valid_mantissa_bound s m e :
  valid_binary (S754_finite s m e) = true -> Zpos m < 9007199254740992.
Proof.
  unfold SpecFloat.valid_binary, bounded, canonical_mantissa, fexp.
  intros H. apply andb_true_iff in H as [H _]. apply Z.eqb_eq in H.
  assert (Hd : Zpos (digits2_pos m) <= 53) by (unfold prec in H; lia).
  eapply Z.lt_le_trans; [apply digits2_pos_bound|].
  replace 9007199254740992 with (2 ^ 53) by reflexivity.
  apply Z.pow_le_mono_r; lia.
Qed.

Lemma Prim2SF_zero : Prim2SF 0 = S754_zero false.
Proof. reflexivity. Qed.

(** 255 = 8972014882652160 * 2^-45 *)
Lemma Prim2SF_255 : Prim2SF 255 = S754_finite false 8972014882652160 (-45).
Proof. reflexivity. Qed.

(** Two positive finite numbers compare by exponent, then by mantissa. *)
Lemma SFltb_finite_pos m e m' e' :
  SFltb (S754_finite false m e) (S754_finite false m' e') = true ->
  e < e' \/ (e = e' /\ Zpos m < Zpos m').
Proof.
  unfold SFltb, SFcompare.
  change (PosDef.Pos.compare_cont Eq m m') with (Pos.compare m m').
  destruct (Z.compare_spec e e') as [->|Hlt|Hgt]; try discriminate.
  - destruct (Pos.compare_spec m m') as [| Hm |]; try discriminate.
    right. split; [reflexivity | exact Hm].
  - left. exact Hlt.
Qed.

(** [int] of a float strictly between 0 and 255 is a byte below 255. *)
Lemma int_of_float_between x :
  (0 <? x)%float = true -> (x <? 255)%float = true ->
  0 <= Py.int_of_float x <= 254.
Proof.
  rewrite !FloatAxioms.ltb_spec, Prim2SF_zero, Prim2SF_255.
  unfold Py.int_of_float. pose proof (Prim2SF_valid x) as V.
  destruct (Prim2SF x) as [s|s| |s m e]; intros H0 H255.
  - discriminate H0.
  - destruct s; discriminate.
  - discriminate H0.
  - destruct s; [discriminate H0|].
    apply valid_mantissa_bound in V.
    apply SFltb_finite_pos in H255.
    assert (He : e <= -45) by lia.
    replace e with (- (- e)) by lia.
    rewrite Z.shiftl_opp_r, Z.shiftr_div_pow2 by lia.
    split; [apply Z.div_pos; [lia | apply Z.pow_pos_nonneg; lia]|].
    apply Z.lt_succ_r. change (Z.succ 254) with 255.
    apply Z.div_lt_upper_bound; [apply Z.pow_pos_nonneg; lia|].
    destruct H255 as [Hlt | [-> Hm]].
    + assert (H46 : 2 ^ 46 <= 2 ^ (- e)) by (apply Z.pow_le_mono_r; lia).
      replace (2 ^ 46) with 70368744177664 in H46 by reflexivity. lia.
    + replace (2 ^ (- (-45))) with 35184372088832 by reflexivity. lia.
Qed.

Lemma clamp_byte_range x : in_byte (Py.clamp_byte x).
Proof.
  unfold Py.clamp_byte, in_byte.
  destruct (0 <? x)%float eqn:H0; [|lia].
  destruct (x <? 255)%float eqn:H1; [|lia].
  pose proof (int_of_float_between x H0 H1). lia.
Qed.

(** C7.  For every input triple with components in [0, 255] and every
    blindness-type string, known or not, each component returned by
    [simulate_color_blindness] is an integer in [0, 255]. *)
Theorem simulate_color_blindness_in_range (r g b : Z) (blindness_type : string) :
  in_byte r -> in_byte g -> in_byte b ->
  let '(r', g', b') := simulate_color_blindness r g b blindness_type in
  in_byte r' /\ in_byte g' /\ in_byte b'.
Proof.
  intros Hr Hg Hb. unfold simulate_color_blindness.
  destruct (dict_get COLOR_BLINDNESS_MATRICES blindness_type) as [[[row0 row1] row2]|].
  - repeat split; apply clamp_byte_range.
  - auto.
Qed.

Lemma simulate_color_blindness_in_range_witness :
  let '(r', g', b') := simulate_color_blindness 255 0 0 "protanopia" in
  in_byte r' /\ in_byte g' /\ in_byte b'.
Proof. apply simulate_color_blindness_in_range; unfold in_byte; lia. Defined.

(** The boundary inputs under each of the four matrices.  White loses one
    unit where the row sums to 254.99999999999997 in double precision. *)
Example simulate_color_blindness_boundaries :
  map (simulate_color_blindness 0 0 0)
      ["protanopia"; "deuteranopia"; "tritanopia"; "achromatopsia"] =
    [(0, 0, 0); (0, 0, 0); (0, 0, 0); (0, 0, 0)] /\
  map (simulate_color_blindness 255 255 255)
      ["protanopia"; "deuteranopia"; "tritanopia"; "achromatopsia"] =
    [(254, 255, 255); (255, 255, 255); (255, 254, 255); (255, 255, 255)] /\
  simulate_color_blindness 255 0 0 "protanopia" = (144, 142, 0).
Proof. repeat split. Qed.

(** ** Unknown blindness types *)

(** C8.  For every blindness-type string other than the four dictionary
    keys, [simulate_color_blindness] returns the input triple unchanged (a
    value, not an error). *)
Theorem simulate_color_blindness_unknown (r g b : Z) (blindness_type : string) :
  blindness_type <> "protanopia" ->
  blindness_type <> "deuteranopia" ->
  blindness_type <> "tritanopia" ->
  blindness_type <> "achromatopsia" ->
  simulate_color_blindness r g b blindness_type = (r, g, b).
Proof.
  intros H1 H2 H3 H4. unfold simulate_color_blindness, COLOR_BLINDNESS_MATRICES.
  cbn [dict_get].
  apply String.eqb_neq in H1, H2, H3, H4.
  rewrite H1, H2, H3, H4. reflexivity.
Qed.

Lemma simulate_color_blindness_unknown_witness :
  simulate_color_blindness 12 200 7 "Protanopia" = (12, 200, 7).
Proof.
  apply simulate_color_blindness_unknown; intros H; discriminate H.
Defined.


(* ================================================================== *)
(** * Region sampling                                                  *)
(* ================================================================== *)

Import ColorDetector.

(** C9, at the failing input.  On a 2 x 1 image the call with centre
    x = 0, y = -2 and radius 0 asks for a box that lies wholly above the
    image, so the clamped box holds no pixel; the method nevertheless
    returns the colour of the top pixel, because the negative upper bound
    [y_max = -1] is read by the slice as counting from the end. *)
Theorem average_region_negative_stop :
  box_pixels column_image 0 (-2) 0 = [] /\
  get_average_color_in_region (Some column_image) 0 (-2) 0 = Some (10, 20, 30).
Proof. split; reflexivity. Qed.

Lemma zrange_single a : zrange a (a + 1) = [a].
Proof.
  unfold zrange. replace (a + 1 - a) with 1 by lia.
  change (Z.to_nat 1) with 1%nat. cbn [seq map].
  change (Z.of_nat 0) with 0. now rewrite Z.add_0_r.
Qed.

(** At radius 0 inside the image the sampled region is the one pixel and the
    truncated mean is its colour. *)
Lemma average_region_radius_zero (image : Image) (x y : Z) :
  0 <= x < width image -> 0 <= y < height image ->
  byte_rgb (pixel image y x) ->
  get_average_color_in_region (Some image) x y 0 = Some (pixel image y x).
Proof.
  intros Hx Hy Hp. unfold get_average_color_in_region.
  rewrite !Z.sub_0_r, !Z.add_0_r.
  assert (Hrows : slice (height image) (Z.max 0 y) (Z.min (height image) (y + 1)) = [y]).
  { unfold slice, adjust_index.
    rewrite (Z.max_r 0 y), (Z.min_r (height image) (y + 1)) by lia.
    destruct (Z.ltb_spec y 0); [lia|]. destruct (Z.ltb_spec (y + 1) 0); [lia|].
    rewrite !Z.min_l by lia. apply zrange_single. }
  assert (Hcols : slice (width image) (Z.max 0 x) (Z.min (width image) (x + 1)) = [x]).
  { unfold slice, adjust_index.
    rewrite (Z.max_r 0 x), (Z.min_r (width image) (x + 1)) by lia.
    destruct (Z.ltb_spec x 0); [lia|]. destruct (Z.ltb_spec (x + 1) 0); [lia|].
    rewrite !Z.min_l by lia. apply zrange_single. }
  rewrite Hrows, Hcols. cbn [region_pixels flat_map map app].
  destruct (pixel image y x) as [[r g] b]. destruct Hp as (Hr & Hg & Hb).
  assert (T : all_bytes mean_exact_ok = true) by (vm_compute; reflexivity).
  pose proof (all_bytes_spec _ T r Hr) as Er.
  pose proof (all_bytes_spec _ T g Hg) as Eg.
  pose proof (all_bytes_spec _ T b Hb) as Eb.
  unfold mean_exact_ok in Er, Eg, Eb. apply Z.eqb_eq in Er, Eg, Eb.
  unfold mean_channel, sum_channel, red, green, blue.
  cbn [fold_right List.length fst snd].
  rewrite Er, Eg, Eb. reflexivity.
Qed.


Lemma zrange_nil lo hi : hi <= lo -> zrange lo hi = [].
Proof.
  intros H. unfold zrange. replace (Z.to_nat (hi - lo)) with O by lia. reflexivity.
Qed.

Lemma zrange_cons lo hi : lo < hi -> zrange lo hi = lo :: zrange (lo + 1) hi.
Proof.
  intros H. unfold zrange.
  replace (Z.to_nat (hi - lo)) with (S (Z.to_nat (hi - (lo + 1)))) by lia.
  cbn [seq map]. f_equal; [change (Z.of_nat 0) with 0; lia|].
  rewrite <- seq_shift, map_map. apply map_ext. intros i. lia.
Qed.

(** Filtering a range by an interval is the intersection of the two. *)
Lemma filter_zrange a b : forall n lo hi,
  Z.to_nat (hi - lo) = n ->
  filter (fun i => (a <=? i) && (i <? b)) (zrange lo hi) =
  zrange (Z.max lo a) (Z.min hi b).
Proof.
  induction n as [|n IH]; intros lo hi Hn.
  - rewrite (zrange_nil lo hi), zrange_nil by lia. reflexivity.
  - rewrite (zrange_cons lo hi) by lia. cbn [filter].
    rewrite (IH (lo + 1) hi) by lia.
    destruct (Z.leb_spec a lo); destruct (Z.ltb_spec lo b); cbn [andb].
    + rewrite (zrange_cons (Z.max lo a)) by lia.
      rewrite (Z.max_l lo a) by lia. f_equal. f_equal. lia.
    + rewrite !zrange_nil by lia. reflexivity.
    + f_equal. lia.
    + rewrite !zrange_nil by lia. reflexivity.
Qed.

(** With a non-negative upper bound the slice taken by the method is the
    part of the requested interval that lies on the axis. *)
Lemma slice_is_box len lo hi :
  0 <= len -> 0 <= hi + 1 ->
  slice len (Z.max 0 lo) (Z.min len (hi + 1)) =
  filter (fun i => (lo <=? i) && (i <=? hi)) (zrange 0 len).
Proof.
  intros Hlen Hhi.
  rewrite (filter_ext _ (fun i => (lo <=? i) && (i <? hi + 1))).
  2:{ intros i. f_equal. destruct (Z.leb_spec i hi), (Z.ltb_spec i (hi + 1)); lia || reflexivity. }
  rewrite (filter_zrange lo (hi + 1) _ 0 len eq_refl).
  unfold slice, adjust_index.
  destruct (Z.ltb_spec (Z.max 0 lo) 0); [lia|].
  destruct (Z.ltb_spec (Z.min len (hi + 1)) 0); [lia|].
  rewrite (Z.min_l (Z.min len (hi + 1)) len) by lia.
  destruct (Z.le_gt_cases (Z.max 0 lo) len).
  - rewrite Z.min_l by lia. reflexivity.
  - rewrite !zrange_nil by lia. reflexivity.
Qed.

(** X22.  On every image, and for every centre and radius whose upper bounds
    [x + radius + 1] and [y + radius + 1] are not negative, the method
    returns the truncated per-channel mean of the clamped box, and [None]
    exactly when the box holds no pixel. *)
Lemma average_region_is_box_mean (image : Image) (x y radius : Z) :
  0 <= height image -> 0 <= width image ->
  0 <= x + radius + 1 -> 0 <= y + radius + 1 ->
  get_average_color_in_region (Some image) x y radius =
  match box_pixels image x y radius with
  | [] => None
  | px => Some (mean_channel red px, mean_channel green px, mean_channel blue px)
  end.
Proof.
  intros Hh Hw Hx Hy. unfold get_average_color_in_region, box_pixels.
  rewrite (slice_is_box (height image) (y - radius) (y + radius)) by lia.
  rewrite (slice_is_box (width image) (x - radius) (x + radius)) by lia.
  destruct (region_pixels image _ _); reflexivity.
Qed.

(* ================================================================== *)
(** * Dominant colours: dependence on the random draw                  *)
(* ================================================================== *)

(** C2, at the failing input.  On a 1 x 2 buffer holding a black and a white
    pixel, with one cluster and a cap of one pixel, the sampler may return
    index 0 or index 1.  For every k-means that puts a single sample into a
    cluster centred on it, the two runs report different dominant colours:
    black in one, white in the other. *)
Theorem extract_depends_on_draw
    (KMeans_fit : Z -> Z -> Z -> list Point -> option (list Point * list Z)) :
  KMeans_fit 1 42 10 [(0, 0, 0)%float] = Some ([(0, 0, 0)%float], [0]) ->
  KMeans_fit 1 42 10 [(255, 255, 255)%float] =
    Some ([(255, 255, 255)%float], [0]) ->
  valid_draw 2 1 [0] /\ valid_draw 2 1 [1] /\
  extract_dominant_colors KMeans_fit (Some row_image) 1 1 [0] =
    Some [ {| rgb := (0, 0, 0); percentage := 100; count := 1 |} ] /\
  extract_dominant_colors KMeans_fit (Some row_image) 1 1 [1] =
    Some [ {| rgb := (255, 255, 255); percentage := 100; count := 1 |} ].
Proof.
  intros Hblack Hwhite.
  assert (V : forall i, 0 <= i < 2 -> valid_draw 2 1 [i]).
  { intros i Hi. unfold valid_draw. repeat split.
    - repeat constructor. intros [].
    - repeat constructor; lia. }
  split; [apply V; lia|]. split; [apply V; lia|].
  unfold extract_dominant_colors, cluster_summary.
  change (reshape_pixels row_image) with [(0, 0, 0); (255, 255, 255)].
  cbn [List.length Z.of_nat Pos.of_succ_nat Pos.succ Z.ltb Z.compare Pos.compare
       Pos.compare_cont].
  change (astype_float (take_indices [(0, 0, 0); (255, 255, 255)] [0]))
    with [(0, 0, 0)%float].
  change (astype_float (take_indices [(0, 0, 0); (255, 255, 255)] [1]))
    with [(255, 255, 255)%float].
  rewrite Hblack, Hwhite. split; reflexivity.
Qed.

Lemma extract_depends_on_draw_witness :
  valid_draw 2 1 [0] /\ valid_draw 2 1 [1] /\
  extract_dominant_colors KMeans1_fit (Some row_image) 1 1 [0] =
    Some [ {| rgb := (0, 0, 0); percentage := 100; count := 1 |} ] /\
  extract_dominant_colors KMeans1_fit (Some row_image) 1 1 [1] =
    Some [ {| rgb := (255, 255, 255); percentage := 100; count := 1 |} ].
Proof. apply extract_depends_on_draw; reflexivity. Defined.

(** When the buffer has no more pixels than the cap, no sample is drawn and
    the result does not depend on the random source. *)
Lemma extract_without_sampling KMeans_fit (image : Image)
    (n_colors sample_size : Z) (draw1 draw2 : list Z) :
  Z.of_nat (List.length (reshape_pixels image)) <= sample_size ->
  extract_dominant_colors KMeans_fit (Some image) n_colors sample_size draw1 =
  extract_dominant_colors KMeans_fit (Some image) n_colors sample_size draw2.
Proof.
  intros H. unfold extract_dominant_colors, cluster_summary.
  destruct (Z.ltb_spec sample_size (Z.of_nat (List.length (reshape_pixels image))));
    [lia | reflexivity].
Qed.

(* ================================================================== *)
(** * Dominant colours: output order                                   *)
(* ================================================================== *)

Section SortFacts.

Context {A : Type} (key : A -> float).

Lemma insert_desc_perm x l : Permutation (insert_desc key x l) (x :: l).
Proof.
  induction l as [|y l IH]; cbn [insert_desc]; [reflexivity|].
  destruct (key x <? key y)%float; [|reflexivity].
  rewrite IH. apply perm_swap.
Qed.

Lemma sort_desc_perm l : Permutation (sort_desc key l) l.
Proof.
  induction l as [|x l IH]; cbn [sort_desc]; [reflexivity|].
  rewrite insert_desc_perm. now constructor.
Qed.

End SortFacts.

(** Sorting commutes with a projection that preserves the key. *)
Lemma insert_desc_map {A B : Type} (key : A -> float) (f : B -> A) x l :
  map f (insert_desc (fun b => key (f b)) x l) = insert_desc key (f x) (map f l).
Proof.
  induction l as [|y l IH]; cbn [insert_desc map]; [reflexivity|].
  destruct (key (f x) <? key (f y))%float; cbn [map]; [now rewrite IH | reflexivity].
Qed.

Lemma sort_desc_map {A B : Type} (key : A -> float) (f : B -> A) l :
  map f (sort_desc (fun b => key (f b)) l) = sort_desc key (map f l).
Proof.
  induction l as [|x l IH]; cbn [sort_desc map]; [reflexivity|].
  now rewrite insert_desc_map, IH.
Qed.

Lemma stands_before_of_ltb a b :
  (tagged_percentage b <? tagged_percentage a)%float = true -> stands_before a b.
Proof.
  intros H. destruct (ltb_true_not_nan _ _ H) as [Hb Ha]. split.
  - rewrite (leb_ltb _ _ Hb Ha), (ltb_asym _ _ H). reflexivity.
  - rewrite (eqb_ltb _ _ Ha Hb), H, andb_false_r. discriminate.
Qed.

Lemma insert_desc_sorted x l :
  is_number (snd x) -> Forall (fun y => is_number (snd y)) l ->
  Forall (fun y => (fst x < fst y)%nat) l ->
  StronglySorted stands_before l ->
  StronglySorted stands_before (insert_desc tagged_percentage x l).
Proof.
  intros Hx Hnum Hidx Hs.
  induction Hs as [|y l Hs IH Hy]; cbn [insert_desc].
  - constructor; constructor.
  - inversion Hnum as [|? ? Ny Nl]; subst. inversion Hidx as [|? ? Iy Il]; subst.
    destruct (tagged_percentage x <? tagged_percentage y)%float eqn:E.
    + constructor; [apply IH; assumption|].
      rewrite (insert_desc_perm tagged_percentage x l).
      constructor; [now apply stands_before_of_ltb | assumption].
    + assert (Hyx : (tagged_percentage y <=? tagged_percentage x)%float = true)
        by (apply leb_of_not_ltb; assumption).
      constructor; [constructor; assumption|].
      constructor.
      * split; [assumption | intros _; assumption].
      * rewrite Forall_forall in Hy, Il |- *. intros z Hz.
        split; [|intros _; now apply Il].
        destruct (Hy z Hz) as [Hzy _].
        exact (leb_trans_const _ _ _ Hzy Hyx).
Qed.

Lemma sort_desc_sorted l :
  Forall (fun y => is_number (snd y)) l ->
  StronglySorted (fun a b => (fst a < fst b)%nat) l ->
  StronglySorted stands_before (sort_desc tagged_percentage l).
Proof.
  intros Hnum Hs. induction Hs as [|x l Hs IH Hx]; cbn [sort_desc].
  - constructor.
  - inversion Hnum as [|? ? Nx Nl]; subst.
    apply insert_desc_sorted.
    + assumption.
    + now rewrite sort_desc_perm.
    + now rewrite sort_desc_perm.
    + now apply IH.
Qed.

Lemma combine_seq_sorted {A : Type} (l : list A) : forall s,
  StronglySorted (fun a b : nat * A => (fst a < fst b)%nat)
                 (combine (seq s (List.length l)) l).
Proof.
  induction l as [|x l IH]; intros s; cbn [List.length seq combine].
  - constructor.
  - constructor; [apply IH|].
    rewrite Forall_forall. intros [i y] Hin. apply in_combine_l in Hin.
    apply in_seq in Hin. cbn. lia.
Qed.

Lemma map_snd_enumerate {A : Type} (l : list A) : map snd (enumerate l) = l.
Proof.
  unfold enumerate. generalize 0%nat.
  induction l as [|x l IH]; intros s; cbn; [reflexivity | now rewrite IH].
Qed.

Lemma enumerate_numbers l :
  Forall is_number l -> Forall (fun y => is_number (snd y)) (enumerate l).
Proof.
  intros H. rewrite Forall_forall in H |- *. intros [i e] Hin.
  apply H. unfold enumerate in Hin. now apply in_combine_r in Hin.
Qed.

(** C10.  The sequence returned by [extract_dominant_colors] is the list
    built by the loop, rearranged so that percentages never increase from
    one entry to the next, and so that of two entries with equal percentage
    the one with the smaller original cluster index comes first.  (The
    percentages are numbers, not nan, as they are for every clustering.) *)
Theorem extract_sorted_stable KMeans_fit (image : Image)
    (n_colors sample_size : Z) (draw : list Z) (results : list DominantColor) :
  cluster_summary KMeans_fit image n_colors sample_size draw = Some results ->
  Forall is_number results ->
  exists tagged,
    extract_dominant_colors KMeans_fit (Some image) n_colors sample_size draw
      = Some (map snd tagged) /\
    Permutation tagged (enumerate results) /\
    StronglySorted stands_before tagged.
Proof.
  intros Hres Hnum.
  exists (sort_desc tagged_percentage (enumerate results)). split; [|split].
  - unfold extract_dominant_colors. rewrite Hres. f_equal.
    unfold tagged_percentage.
    rewrite (sort_desc_map percentage snd), map_snd_enumerate. reflexivity.
  - apply sort_desc_perm.
  - apply sort_desc_sorted; [now apply enumerate_numbers|].
    apply combine_seq_sorted.
Qed.

(** The extractor run on a clustering with percentages 20, 30, 20, 30:
    the two 30s come first, cluster 1 before cluster 3, then the two 20s,
    cluster 0 before cluster 2. *)
Example extract_ties_keep_cluster_order :
  extract_dominant_colors KMeans_fixed (Some row_image) 4 10000 [] =
    Some [ {| rgb := (20, 20, 20); percentage := 30; count := 3 |};
           {| rgb := (40, 40, 40); percentage := 30; count := 3 |};
           {| rgb := (10, 10, 10); percentage := 20; count := 2 |};
           {| rgb := (30, 30, 30); percentage := 20; count := 2 |} ].
Proof. reflexivity. Qed.

Lemma extract_sorted_stable_witness :
  exists tagged,
    extract_dominant_colors KMeans_fixed (Some row_image) 4 10000 [] =
      Some (map snd tagged) /\
    Permutation tagged
      (enumerate
         [ {| rgb := (10, 10, 10); percentage := 20; count := 2 |};
           {| rgb := (20, 20, 20); percentage := 30; count := 3 |};
           {| rgb := (30, 30, 30); percentage := 20; count := 2 |};
           {| rgb := (40, 40, 40); percentage := 30; count := 3 |} ]) /\
    StronglySorted stands_before tagged.
Proof.
  apply extract_sorted_stable.
  - reflexivity.
  - repeat (constructor; [reflexivity|]). constructor.
Defined.

(* ================================================================== *)
(** * The converter beyond the round trips                             *)
(* ================================================================== *)

Lemma all_chars_spec P : all_chars P = true -> forall c, P c = true.
Proof.
  intros H c. unfold all_chars in H.
  pose proof (all_bytes_spec _ H (Z.of_nat (nat_of_ascii c))) as Hc.
  cbv beta in Hc. unfold char_of in Hc.
  rewrite Nat2Z.id, ascii_nat_embedding in Hc. apply Hc.
  pose proof (nat_ascii_bounded c). unfold in_byte. lia.
Qed.

(** ** Complement *)

(** The complement of the complement is the colour, and the complement of
    a byte triple is a byte triple. *)
Lemma complement_involution (r g b : Z) :
  (let '(r', g', b') := get_complementary_color r g b in
   get_complementary_color r' g' b') = (r, g, b) /\
  (in_byte r -> in_byte g -> in_byte b ->
   byte_rgb (get_complementary_color r g b)).
Proof.
  unfold get_complementary_color, byte_rgb, in_byte. split.
  - f_equal; [f_equal|]; lia.
  - intros. lia.
Qed.

(** ** Parsing *)

Lemma doubled_digit a v :
  Py.hex_value a = Some v ->
  Py.int16 (String a (String a EmptyString)) = Some (17 * v) /\
  Ascii.eqb a "#" = false.
Proof.
  intros H.
  assert (T : doubled_digit_ok a = true)
    by (apply all_chars_spec; vm_compute; reflexivity).
  unfold doubled_digit_ok in T. rewrite H in T.
  destruct (Py.int16 (String a (String a ""))) as [w|]; [|discriminate].
  apply andb_true_iff in T as [T1 T2]. apply Z.eqb_eq in T1.
  apply negb_true_iff in T2. subst. auto.
Qed.

(** X1.  A three-digit code, with or without the leading ['#'], is read as the
    six-digit code that repeats each digit: every component is 17 times its
    digit.  The UI's own parser refuses the three-digit form. *)
Theorem hex_to_rgb_shorthand (a b c : ascii) (va vb vc : Z) :
  Py.hex_value a = Some va -> Py.hex_value b = Some vb ->
  Py.hex_value c = Some vc ->
  let short := String a (String b (String c EmptyString)) in
  let long := String a (String a (String b (String b (String c (String c EmptyString))))) in
  hex_to_rgb (String "#" short) = Some (17 * va, 17 * vb, 17 * vc) /\
  hex_to_rgb short = Some (17 * va, 17 * vb, 17 * vc) /\
  hex_to_rgb (String "#" long) = Some (17 * va, 17 * vb, 17 * vc) /\
  App._hex_to_rgb (String "#" short) = None.
Proof.
  intros Ha Hb Hc short long.
  destruct (doubled_digit a va Ha) as [Ia Na].
  destruct (doubled_digit b vb Hb) as [Ib _].
  destruct (doubled_digit c vc Hc) as [Ic _].
  assert (E3 : hex_to_rgb short = Some (17 * va, 17 * vb, 17 * vc)).
  { unfold hex_to_rgb, short. cbn [Py.lstrip]. rewrite Na.
    cbn [String.length Nat.eqb Py.double_chars Py.slice2 substring].
    rewrite Ia, Ib, Ic. reflexivity. }
  assert (E6 : hex_to_rgb long = Some (17 * va, 17 * vb, 17 * vc)).
  { unfold hex_to_rgb, long. cbn [Py.lstrip]. rewrite Na.
    cbn [String.length Nat.eqb Py.double_chars Py.slice2 substring].
    rewrite Ia, Ib, Ic. reflexivity. }
  repeat split; try assumption.
  unfold App._hex_to_rgb, short. cbn [Py.lstrip].
  change (Ascii.eqb "#" "#") with true. cbn iota. cbn [Py.lstrip]. rewrite Na.
  cbn [Py.slice2 substring].
  destruct (Py.int16 (String a (String b ""))); [|reflexivity].
  destruct (Py.int16 (String c "")); reflexivity.
Qed.

Lemma hex_to_rgb_shorthand_witness :
  hex_to_rgb "#fA0" = Some (17 * 15, 17 * 10, 17 * 0) /\
  hex_to_rgb "fA0" = Some (17 * 15, 17 * 10, 17 * 0) /\
  hex_to_rgb "#ffAA00" = Some (17 * 15, 17 * 10, 17 * 0) /\
  App._hex_to_rgb "#fA0" = None.
Proof. apply (hex_to_rgb_shorthand "f" "A" "0"); reflexivity. Defined.

Lemma lower_app s1 s2 : Py.lower (s1 ++ s2) = (Py.lower s1 ++ Py.lower s2)%string.
Proof. induction s1 as [|c s1 IH]; simpl; [reflexivity | now rewrite IH]. Qed.

Lemma lower_field n :
  in_byte n ->
  exists a b, Py.lower (Py.upper (Py.format_02x n)) = String a (String b EmptyString)
    /\ Ascii.eqb a "#" = false
    /\ Py.int16 (String a (String b EmptyString)) = Some n.
Proof.
  intros Hn.
  assert (H : lower_field_ok n = true)
    by (apply all_bytes_spec; [vm_compute; reflexivity | assumption]).
  unfold lower_field_ok in H.
  destruct (Py.lower (Py.upper (Py.format_02x n))) as [|a [|b [|]]]; try discriminate.
  apply andb_true_iff in H as [H1 H2]. apply negb_true_iff in H1.
  exists a, b. repeat split; try assumption.
  destruct (Py.int16 (String a (String b ""))) as [m|]; [|discriminate].
  apply Z.eqb_eq in H2. now subst.
Qed.

(** X2.  The code in lower case, with or without the leading ['#'], parses to
    the same triple, by the core parser and by the UI's. *)
Theorem hex_to_rgb_accepts_variants (r g b : Z) :
  in_byte r -> in_byte g -> in_byte b ->
  let code := rgb_to_hex r g b in
  hex_to_rgb (Py.lower code) = Some (r, g, b) /\
  hex_to_rgb (substring 1 6 code) = Some (r, g, b) /\
  hex_to_rgb (substring 1 6 (Py.lower code)) = Some (r, g, b) /\
  App._hex_to_rgb code = Some (r, g, b) /\
  App._hex_to_rgb (Py.lower code) = Some (r, g, b).
Proof.
  intros Hr Hg Hb code.
  destruct (rgb_to_hex_digits r g b Hr Hg Hb)
    as (r1 & r2 & g1 & g2 & b1 & b2 & E & Hr1 & Hr2 & Hg1 & Hg2 & Hb1 & Hb2 & Ir & Ig & Ib).
  destruct (lower_field r Hr) as (lr1 & lr2 & Er & Nr & Jr).
  destruct (lower_field g Hg) as (lg1 & lg2 & Eg & _ & Jg).
  destruct (lower_field b Hb) as (lb1 & lb2 & Eb & _ & Jb).
  assert (EL : Py.lower code =
    String "#" (String lr1 (String lr2 (String lg1 (String lg2 (String lb1 (String lb2 EmptyString))))))).
  { unfold code, rgb_to_hex. rewrite !upper_app, !lower_app, Er, Eg, Eb. reflexivity. }
  pose proof (upper_hex_not_hash r1 Hr1) as Nr1.
  rewrite EL. subst code. rewrite E.
  unfold hex_to_rgb, App._hex_to_rgb.
  cbn [substring Py.lstrip]. change (Ascii.eqb "#" "#") with true. cbn iota.
  cbn [Py.lstrip]. rewrite Nr, Nr1.
  cbn [String.length Nat.eqb Py.slice2 substring].
  rewrite Ir, Ig, Ib, Jr, Jg, Jb. repeat split.
Qed.

Lemma hex_to_rgb_accepts_variants_witness :
  let code := rgb_to_hex 255 165 0 in
  hex_to_rgb (Py.lower code) = Some (255, 165, 0) /\
  hex_to_rgb (substring 1 6 code) = Some (255, 165, 0) /\
  hex_to_rgb (substring 1 6 (Py.lower code)) = Some (255, 165, 0) /\
  App._hex_to_rgb code = Some (255, 165, 0) /\
  App._hex_to_rgb (Py.lower code) = Some (255, 165, 0).
Proof. apply hex_to_rgb_accepts_variants; unfold in_byte; lia. Defined.

(** X3.  [rgb_to_hex] is one-to-one on byte triples. *)
Theorem rgb_to_hex_injective (r g b r' g' b' : Z) :
  in_byte r -> in_byte g -> in_byte b ->
  in_byte r' -> in_byte g' -> in_byte b' ->
  rgb_to_hex r g b = rgb_to_hex r' g' b' -> (r, g, b) = (r', g', b').
Proof.
  intros Hr Hg Hb Hr' Hg' Hb' E.
  destruct (rgb_to_hex_digits r g b Hr Hg Hb)
    as (r1 & r2 & g1 & g2 & b1 & b2 & E1 & _ & _ & _ & _ & _ & _ & Ir & Ig & Ib).
  destruct (rgb_to_hex_digits r' g' b' Hr' Hg' Hb')
    as (s1 & s2 & h1 & h2 & c1 & c2 & E2 & _ & _ & _ & _ & _ & _ & Jr & Jg & Jb).
  rewrite E1, E2 in E. injection E as -> -> -> -> -> ->.
  congruence.
Qed.

Lemma rgb_to_hex_injective_witness : (255, 165, 0) = (255, 165, 0).
Proof.
  apply rgb_to_hex_injective; try (unfold in_byte; lia). reflexivity.
Defined.

Lemma slice2_short4 t :
  (String.length t <= 4)%nat -> Py.slice2 4 t = EmptyString.
Proof.
  unfold Py.slice2. intros H.
  destruct t as [|c1 [|c2 [|c3 [|c4 [|c5 t]]]]]; cbn in *; try reflexivity; lia.
Qed.

(** X4.  Inputs of the wrong length: a code of at most four characters other
    than three is refused, and whatever follows the sixth character of a
    longer one is not read. *)
Theorem hex_to_rgb_length_handling :
  (forall s, let t := Py.lstrip "#" s in
     (String.length t <= 4)%nat -> String.length t <> 3%nat ->
     hex_to_rgb s = None) /\
  (forall c1 c2 c3 c4 c5 c6 rest,
     Ascii.eqb c1 "#" = false ->
     let code := String c1 (String c2 (String c3 (String c4 (String c5 (String c6 EmptyString))))) in
     hex_to_rgb (code ++ rest) = hex_to_rgb code).
Proof.
  split.
  - intros s t Hlen H3. unfold hex_to_rgb. fold t.
    destruct (Nat.eqb_spec (String.length t) 3) as [|_]; [contradiction|].
    rewrite (slice2_short4 t Hlen).
    destruct (Py.int16 (Py.slice2 0 t)); [|reflexivity].
    destruct (Py.int16 (Py.slice2 2 t)); reflexivity.
  - intros c1 c2 c3 c4 c5 c6 rest N code. unfold hex_to_rgb, code.
    cbn [append Py.lstrip]. rewrite N.
    cbn [String.length Nat.eqb Py.slice2 substring].
    replace (substring 0 0 rest) with EmptyString by (destruct rest; reflexivity).
    reflexivity.
Qed.

Lemma short_string_cases u :
  (String.length u <= 2)%nat ->
  u = EmptyString \/ (exists a, u = String a EmptyString) \/
  exists a b, u = String a (String b EmptyString).
Proof.
  destruct u as [|a [|b [|c u]]]; cbn; intros H; eauto; lia.
Qed.

Lemma slice2_length i t : (String.length (Py.slice2 i t) <= 2)%nat.
Proof.
  unfold Py.slice2. revert t.
  induction i as [|i IH]; intros t.
  - destruct t as [|a [|b [|c t]]]; cbn; lia.
  - destruct t as [|a t]; cbn [substring]; [cbn; lia | apply IH].
Qed.

Lemma int16_short_range u v :
  (String.length u <= 2)%nat -> Py.int16 u = Some v -> -15 <= v <= 255.
Proof.
  intros Hlen Hv.
  assert (T1 : all_chars (fun a => option_in (-15) 255 (Py.int16 (String a EmptyString))) = true)
    by (vm_compute; reflexivity).
  assert (T2 : all_chars (fun a => all_chars (fun b =>
                 option_in (-15) 255 (Py.int16 (String a (String b EmptyString))))) = true)
    by (vm_compute; reflexivity).
  assert (R : option_in (-15) 255 (Py.int16 u) = true).
  { destruct (short_string_cases u Hlen) as [->|[(a & ->)|(a & b & ->)]].
    - reflexivity.
    - exact (all_chars_spec _ T1 a).
    - pose proof (all_chars_spec _ T2 a) as Ha. cbv beta in Ha.
      exact (all_chars_spec _ Ha b). }
  rewrite Hv in R. cbn in R. apply andb_true_iff in R as [R1 R2].
  apply Z.leb_le in R1, R2. lia.
Qed.

(** X5.  Whatever string is parsed, a component that comes back lies between
    -15 and 255: two characters are read per component, and a sign is
    accepted in place of a digit. *)
Theorem hex_to_rgb_component_range (s : string) (r g b : Z) :
  hex_to_rgb s = Some (r, g, b) ->
  -15 <= r <= 255 /\ -15 <= g <= 255 /\ -15 <= b <= 255.
Proof.
  unfold hex_to_rgb.
  set (t := if (String.length (Py.lstrip "#" s) =? 3)%nat
            then Py.double_chars (Py.lstrip "#" s) else Py.lstrip "#" s).
  destruct (Py.int16 (Py.slice2 0 t)) as [r0|] eqn:Er; [|discriminate].
  destruct (Py.int16 (Py.slice2 2 t)) as [g0|] eqn:Eg; [|discriminate].
  destruct (Py.int16 (Py.slice2 4 t)) as [b0|] eqn:Eb; [|discriminate].
  intros H. injection H as <- <- <-.
  repeat split;
    (eapply int16_short_range; [apply slice2_length | eassumption]).
Qed.

Lemma hex_to_rgb_component_range_witness :
  -15 <= -15 <= 255 /\ -15 <= 10 <= 255 /\ -15 <= 255 <= 255.
Proof. apply (hex_to_rgb_component_range "#-f+aFF"). reflexivity. Defined.

(** ** CMYK ranges *)

Lemma cmyk_ink_table :
  all_bytes (fun x => all_bytes (fun top => cmyk_ink_ok x top)) = true.
Proof. vm_compute. reflexivity. Qed.

Lemma cmyk_ink_facts x top :
  in_byte x -> in_byte top -> x <= top -> 1 <= top ->
  percent (cmyk_ink x top) /\ cmyk_ink top top = 0 /\
  0 <= cmyk_black top <= 99.
Proof.
  intros Hx Ht Hle H1.
  pose proof (all_bytes_spec _ cmyk_ink_table x Hx) as H.
  cbv beta in H. pose proof (all_bytes_spec _ H top Ht) as H'.
  cbv beta in H'. unfold cmyk_ink_ok in H'.
  replace (x <=? top) with true in H' by (symmetry; apply Z.leb_le; lia).
  replace (1 <=? top) with true in H' by (symmetry; apply Z.leb_le; lia).
  cbn [andb] in H'.
  rewrite !andb_true_iff, !Z.leb_le, Z.eqb_eq in H'. unfold percent. lia.
Qed.

(** The smallest ink fraction belongs to a largest channel, which is one of
    the three. *)
Lemma min3_cmyk_frac_top r g b :
  in_byte r -> in_byte g -> in_byte b ->
  exists top, (top = r \/ top = g \/ top = b) /\
    r <= top /\ g <= top /\ b <= top /\
    Py.min3 (cmyk_frac r) (cmyk_frac g) (cmyk_frac b) = cmyk_frac top.
Proof.
  intros Hr Hg Hb. unfold Py.min3.
  rewrite (cmyk_frac_order g r Hg Hr).
  destruct (Z.ltb_spec r g).
  - rewrite (cmyk_frac_order b g) by assumption.
    destruct (Z.ltb_spec g b); [exists b | exists g]; repeat split; auto; lia.
  - rewrite (cmyk_frac_order b r) by assumption.
    destruct (Z.ltb_spec r b); [exists b | exists r]; repeat split; auto; lia.
Qed.

(** X6.  For byte triples [rgb_to_cmyk] yields percentages; black is pure key;
    any other colour has key below 100 and no ink on a largest channel. *)
Theorem rgb_to_cmyk_range (r g b : Z) :
  in_byte r -> in_byte g -> in_byte b ->
  let '(c, m, y, k) := rgb_to_cmyk r g b in
  percent c /\ percent m /\ percent y /\ percent k /\
  (c = 0 \/ m = 0 \/ y = 0) /\
  (k = 100 <-> (r, g, b) = (0, 0, 0)).
Proof.
  intros Hr Hg Hb. unfold rgb_to_cmyk.
  destruct ((r =? 0) && (g =? 0) && (b =? 0)) eqn:Ez.
  - apply andb_true_iff in Ez as [Ez Eb]. apply andb_true_iff in Ez as [Er Eg].
    apply Z.eqb_eq in Er, Eg, Eb. subst. unfold percent.
    repeat split; auto; lia.
  - destruct (min3_cmyk_frac_top r g b Hr Hg Hb) as (top & Hin & H1 & H2 & H3 & Hmin).
    assert (Hb' : in_byte top) by (destruct Hin as [->|[->| ->]]; assumption).
    assert (Htop : 1 <= top).
    { unfold in_byte in *.
      destruct (Z.eq_dec top 0) as [->|]; [|lia].
      assert (r = 0) by lia. assert (g = 0) by lia. assert (b = 0) by lia.
      subst. discriminate Ez. }
    cbv zeta. fold (cmyk_frac r) (cmyk_frac g) (cmyk_frac b).
    rewrite Hmin, (cmyk_frac_not_one top) by (unfold in_byte in Hb'; lia).
    fold (cmyk_ink r top) (cmyk_ink g top) (cmyk_ink b top) (cmyk_black top).
    destruct (cmyk_ink_facts r top Hr Hb' H1 Htop) as (Pr & Z0 & Pk).
    destruct (cmyk_ink_facts g top Hg Hb' H2 Htop) as (Pg & _ & _).
    destruct (cmyk_ink_facts b top Hb Hb' H3 Htop) as (Pb & _ & _).
    unfold percent in *. repeat split; try lia.
    + destruct Hin as [->|[->| ->]]; auto.
    + intros E. injection E as -> -> ->. discriminate Ez.
Qed.

Lemma rgb_to_cmyk_range_witness :
  let '(c, m, y, k) := rgb_to_cmyk 255 165 0 in
  percent c /\ percent m /\ percent y /\ percent k /\
  (c = 0 \/ m = 0 \/ y = 0) /\
  (k = 100 <-> (255, 165, 0) = (0, 0, 0)).
Proof. apply rgb_to_cmyk_range; unfold in_byte; lia. Defined.

Lemma all_percent_spec P :
  all_percent P = true -> forall n, percent n -> P n = true.
Proof.
  intros H n Hn. apply (all_from_spec 101 0 P H). unfold percent in Hn. lia.
Qed.

Lemma cmyk_back_table :
  all_percent (fun c => all_percent (fun k => cmyk_back_ok c k)) = true.
Proof. vm_compute. reflexivity. Qed.

(** X7.  For percentages [cmyk_to_rgb] yields bytes; full key is black whatever
    the inks, and no ink with no key is white. *)
Theorem cmyk_to_rgb_range (c m y k : Z) :
  percent c -> percent m -> percent y -> percent k ->
  byte_rgb (cmyk_to_rgb c m y k) /\
  cmyk_to_rgb c m y 100 = (0, 0, 0) /\
  cmyk_to_rgb 0 0 0 0 = (255, 255, 255).
Proof.
  intros Hc Hm Hy Hk.
  assert (F : forall x, percent x ->
            in_byte (cmyk_back x k) /\ cmyk_back x 100 = 0).
  { intros x Hx.
    pose proof (all_percent_spec _ cmyk_back_table x Hx) as H. cbv beta in H.
    pose proof (all_percent_spec _ H k Hk) as H'. cbv beta in H'.
    unfold cmyk_back_ok in H'.
    rewrite !andb_true_iff, !Z.leb_le, !Z.eqb_eq in H'. unfold in_byte. lia. }
  destruct (F c Hc) as [Bc Zc]. destruct (F m Hm) as [Bm Zm].
  destruct (F y Hy) as [By Zy].
  unfold cmyk_to_rgb. cbv zeta. fold (cmyk_back c k) (cmyk_back m k) (cmyk_back y k).
  fold (cmyk_back c 100) (cmyk_back m 100) (cmyk_back y 100).
  rewrite Zc, Zm, Zy. unfold byte_rgb. repeat split; solve [assumption | apply Bc | apply Bm | apply By].
Qed.

Lemma cmyk_to_rgb_range_witness :
  byte_rgb (cmyk_to_rgb 0 35 100 0) /\
  cmyk_to_rgb 0 35 100 100 = (0, 0, 0) /\
  cmyk_to_rgb 0 0 0 0 = (255, 255, 255).
Proof. apply cmyk_to_rgb_range; unfold percent; lia. Defined.

(** ** Harmonies *)

Lemma rgb_eqb_eq p q : rgb_eqb p q = true -> p = q.
Proof.
  destruct p as [[r g] b], q as [[r' g'] b']. unfold rgb_eqb.
  rewrite !andb_true_iff, !Z.eqb_eq. intros [[-> ->] ->]. reflexivity.
Qed.

(** X8.  A gray has hue 0 and saturation 0 in HSV and in HSL, and each of its
    harmonies is the gray's own HSV round trip, twice. *)
Theorem gray_harmonies (n : Z) :
  in_byte n ->
  let c := hsv_roundtrip (n, n, n) in
  get_triadic_colors n n n = [c; c] /\
  get_analogous_colors n n n = [c; c] /\
  get_split_complementary n n n = [c; c] /\
  (exists v, rgb_to_hsv n n n = (0, 0, v)) /\
  (exists l, rgb_to_hsl n n n = (0, 0, l)).
Proof.
  intros Hn c.
  assert (T : gray_harmony_ok n = true)
    by (apply all_bytes_spec; [vm_compute; reflexivity | assumption]).
  unfold gray_harmony_ok in T. fold c in T.
  rewrite !andb_true_iff, !Z.eqb_eq in T.
  destruct T as [[[[[[T1 T2] T3] H1] H2] L1] L2].
  assert (S : forall l, match l with
                        | [a; b] => rgb_eqb a c && rgb_eqb b c
                        | _ => false end = true -> l = [c; c]).
  { intros [|a [|b [|? ?]]] E; try discriminate.
    apply andb_true_iff in E as [Ea Eb].
    apply rgb_eqb_eq in Ea, Eb. now subst. }
  repeat split; try (apply S; assumption).
  - destruct (rgb_to_hsv n n n) as [[h s] v]. cbn in H1, H2. subst. eauto.
  - destruct (rgb_to_hsl n n n) as [[h s] l]. cbn in L1, L2. subst. eauto.
Qed.

Lemma gray_harmonies_witness :
  let c := hsv_roundtrip (128, 128, 128) in
  get_triadic_colors 128 128 128 = [c; c] /\
  get_analogous_colors 128 128 128 = [c; c] /\
  get_split_complementary 128 128 128 = [c; c] /\
  (exists v, rgb_to_hsv 128 128 128 = (0, 0, v)) /\
  (exists l, rgb_to_hsl 128 128 128 = (0, 0, l)).
Proof. apply gray_harmonies; unfold in_byte; lia. Defined.

(** ** Ratings *)

(** X9.  The rating never drops when the contrast ratio grows: of two ratios
    the larger one gets a rating at least as good, on the scale Fail, AA
    Large, AA, AAA. *)
Theorem get_wcag_rating_monotone (x y : float) :
  (x <=? y)%float = true ->
  (rating_level (get_wcag_rating x) <= rating_level (get_wcag_rating y))%nat.
Proof.
  intros Hxy. unfold get_wcag_rating.
  destruct (7 <=? x)%float eqn:X7.
  { rewrite (leb_trans_const 7 x y X7 Hxy). cbn. lia. }
  destruct (4.5 <=? x)%float eqn:X45.
  { rewrite (leb_trans_const 4.5 x y X45 Hxy).
    destruct (7 <=? y)%float; cbn; lia. }
  destruct (3 <=? x)%float eqn:X3.
  { rewrite (leb_trans_const 3 x y X3 Hxy).
    destruct (7 <=? y)%float; [cbn; lia|].
    destruct (4.5 <=? y)%float; cbn; lia. }
  cbn. lia.
Qed.

Lemma get_wcag_rating_monotone_witness :
  (rating_level (get_wcag_rating 4.49) <= rating_level (get_wcag_rating 4.5))%nat.
Proof. apply get_wcag_rating_monotone. reflexivity. Defined.

(* ================================================================== *)
(** * The matcher: construction, queries, search                       *)
(* ================================================================== *)

Lemma load_loop_complete es : forall self,
  load_loop (map json_of es) self =
    inr {| colors := colors self ++ map nc_rgb es;
           color_names := color_names self ++ map nc_name es;
           color_hex := color_hex self ++ map nc_hex es |}.
Proof.
  induction es as [|e es IH]; intros self; cbn [map load_loop].
  - rewrite !app_nil_r. destruct self; reflexivity.
  - cbn. rewrite IH. cbn. rewrite <- !app_assoc. reflexivity.
Qed.

Lemma load_loop_inv data : forall self m,
  load_loop data self = inr m ->
  exists es, data = map json_of es /\
    colors m = (colors self ++ map nc_rgb es)%list /\
    color_names m = (color_names self ++ map nc_name es)%list /\
    color_hex m = (color_hex self ++ map nc_hex es)%list.
Proof.
  induction data as [|c data IH]; intros self m H.
  - injection H as <-. exists []. cbn. rewrite !app_nil_r. auto.
  - cbn [load_loop] in H. destruct c as [[rgb|] [name|] [hex|]]; cbn in H; try discriminate.
    destruct (IH _ _ H) as (es & -> & E1 & E2 & E3).
    exists ({| nc_name := name; nc_hex := hex; nc_rgb := rgb |} :: es).
    cbn in *. rewrite <- !app_assoc in *. cbn in *. auto.
Qed.

Lemma get_all_colors_palette_of es : get_all_colors (palette_of es) = es.
Proof.
  unfold get_all_colors, palette_of, entry_at. cbn [colors color_names color_hex].
  rewrite length_map.
  induction es as [|e es IH]; [reflexivity|].
  cbn [List.length seq map nth]. rewrite <- seq_shift, map_map.
  cbn [nth]. rewrite IH. destruct e; reflexivity.
Qed.

Lemma init_document_inv data m :
  __init__ (Document (Some data)) = inr m ->
  exists es, data = map json_of es /\ es <> [] /\ m = palette_of es.
Proof.
  unfold __init__, _load_colors. cbn [bind].
  destruct (load_loop data empty) as [e|self] eqn:L; cbn; [discriminate|].
  destruct (load_loop_inv _ _ _ L) as (es & -> & E1 & E2 & E3).
  cbn in E1, E2, E3. unfold _build_tree.
  destruct (colors self) as [|c cs] eqn:C; [discriminate|].
  intros H. injection H as <-. exists es. split; [reflexivity|]. split.
  - intros ->. discriminate E1.
  - destruct self. unfold palette_of. cbn in *. congruence.
Qed.

Lemma init_cases src m :
  __init__ src = inr m ->
  m = _use_fallback_colors empty \/ exists es, es <> [] /\ m = palette_of es.
Proof.
  destruct src as [| what | | [data|]]; try discriminate.
  - intros H. injection H as <-. now left.
  - intros H. destruct (init_document_inv _ _ H) as (es & _ & Hne & ->).
    right. eauto.
Qed.

Lemma well_formed_fallback : well_formed (_use_fallback_colors empty).
Proof. unfold well_formed. cbn. repeat split. discriminate. Qed.

Lemma well_formed_palette_of es : es <> [] -> well_formed (palette_of es).
Proof.
  intros Hne. unfold well_formed, palette_of. cbn. rewrite !length_map.
  repeat split. destruct es; [contradiction | discriminate].
Qed.

(** X10.  Whatever the palette file holds, a constructor that returns has
    built a matcher with at least one colour and with as many names and hex
    codes as colours. *)
Theorem init_well_formed (src : DataSource) (m : t) :
  __init__ src = inr m -> well_formed m.
Proof.
  intros H. destruct (init_cases _ _ H) as [->|(es & Hne & ->)].
  - apply well_formed_fallback.
  - now apply well_formed_palette_of.
Qed.

Lemma init_well_formed_witness : well_formed (_use_fallback_colors empty).
Proof. apply (init_well_formed Missing). reflexivity. Defined.

(** X11.  A document that lists the entries [es], each with its three keys,
    loads exactly when [es] is not empty, and then [get_all_colors] returns
    [es] in the order of the file; an empty list of colours is refused by
    the tree with [ValueError]. *)
Theorem init_document_roundtrip (es : list NamedColor) :
  match es with
  | [] => __init__ (Document (Some (map json_of es))) = inl ValueError
  | _ => exists m, __init__ (Document (Some (map json_of es))) = inr m /\
                   get_all_colors m = es
  end.
Proof.
  destruct es as [|e es]; [reflexivity|].
  exists (palette_of (e :: es)). split; [|apply get_all_colors_palette_of].
  unfold __init__, _load_colors. rewrite load_loop_complete. reflexivity.
Qed.

(** ** The entry returned for a query *)

Lemma find_closest_color_some self r g b :
  colors self <> [] ->
  exists idx d2,
    query (colors self) (r, g, b) = Some (idx, d2) /\
    find_closest_color self r g b 1 = Some (match_at self (r, g, b) (idx, d2)).
Proof.
  intros Hne. unfold find_closest_color.
  destruct (colors self) as [|p pts] eqn:E; [contradiction|].
  replace ((1 <? 1) || (Z.of_nat (List.length (p :: pts)) <? 1)) with false
    by (symmetry; apply orb_false_iff; split; [reflexivity|]; apply Z.ltb_ge;
        cbn [List.length]; lia).
  destruct (query (p :: pts) (r, g, b)) as [[idx d2]|] eqn:Q; [|discriminate Q].
  exists idx, d2. split; [reflexivity|]. unfold match_at. rewrite E. reflexivity.
Qed.

(** X12.  On a matcher with a colour, a name and a hex code at every position
    (and at least one position) the default query returns an
    entry of the palette, its name, hex code and colour taken at one
    position, and no colour of the palette is nearer to the query. *)
Theorem find_closest_color_nearest (self : t) (r g b : Z) :
  well_formed self ->
  exists res idx,
    find_closest_color self r g b 1 = Some res /\
    (idx < List.length (colors self))%nat /\
    entry_at self idx = {| nc_name := name res; nc_hex := hex res; nc_rgb := ColorMatcher.rgb res |} /\
    input_rgb res = (r, g, b) /\
    forall p, In p (colors self) -> dist2 (r, g, b) (ColorMatcher.rgb res) <= dist2 (r, g, b) p.
Proof.
  intros [Hne _].
  destruct (find_closest_color_some self r g b Hne) as (idx & d2 & Q & F).
  destruct (query_nearest _ _ _ _ Q) as (Hidx & Hd2 & Hmin).
  exists (match_at self (r, g, b) (idx, d2)), idx.
  split; [exact F|]. split; [exact Hidx|]. split; [reflexivity|].
  split; [reflexivity|].
  intros p Hp. destruct (In_nth (A := RGB) _ _ (0, 0, 0) Hp) as (k & Hk & <-).
  cbn [match_at ColorMatcher.rgb]. rewrite <- Hd2. apply Hmin, Hk.
Qed.

Lemma find_closest_color_nearest_witness :
  exists res idx,
    find_closest_color (_use_fallback_colors empty) 250 160 10 1 = Some res /\
    (idx < List.length (colors (_use_fallback_colors empty)))%nat /\
    entry_at (_use_fallback_colors empty) idx =
      {| nc_name := name res; nc_hex := hex res; nc_rgb := ColorMatcher.rgb res |} /\
    input_rgb res = (250, 160, 10) /\
    forall p, In p (colors (_use_fallback_colors empty)) ->
              dist2 (250, 160, 10) (ColorMatcher.rgb res) <= dist2 (250, 160, 10) p.
Proof.
  apply find_closest_color_nearest.
  unfold well_formed. cbn. repeat split. discriminate.
Defined.

Lemma dist2_nonneg p q : 0 <= dist2 p q.
Proof.
  destruct p as [[r1 g1] b1], q as [[r2 g2] b2]. unfold dist2.
  pose proof (Z.square_nonneg (r1 - r2)). pose proof (Z.square_nonneg (g1 - g2)).
  pose proof (Z.square_nonneg (b1 - b2)). lia.
Qed.

(** X13.  A colour that is in the palette is matched to itself: the returned
    colour is the query, at distance 0 and with confidence 100. *)
Theorem find_closest_color_exact (self : t) (r g b : Z) :
  well_formed self -> In (r, g, b) (colors self) ->
  exists res,
    find_closest_color self r g b 1 = Some res /\
    ColorMatcher.rgb res = (r, g, b) /\ distance res = 0%float /\ confidence res = 100%float.
Proof.
  intros [Hne _] Hin.
  destruct (find_closest_color_some self r g b Hne) as (idx & d2 & Q & F).
  destruct (query_nearest _ _ _ _ Q) as (Hidx & Hd2 & Hmin).
  destruct (In_nth (A := RGB) _ _ (0, 0, 0) Hin) as (k & Hk & Ek).
  pose proof (Hmin k Hk) as Hle. rewrite Ek, dist2_refl in Hle.
  pose proof (dist2_nonneg (r, g, b) (nth idx (colors self) (0, 0, 0))) as H0.
  assert (Hd0 : d2 = 0) by lia.
  rewrite Hd0 in Hd2. symmetry in Hd2. apply dist2_zero in Hd2.
  exists (match_at self (r, g, b) (idx, d2)). split; [exact F|].
  subst d2. cbn [match_at ColorMatcher.rgb distance confidence]. rewrite <- Hd2.
  repeat split.
Qed.

Lemma find_closest_color_exact_witness :
  exists res,
    find_closest_color (_use_fallback_colors empty) 255 165 0 1 = Some res /\
    ColorMatcher.rgb res = (255, 165, 0) /\ distance res = 0%float /\ confidence res = 100%float.
Proof.
  apply find_closest_color_exact.
  - unfold well_formed. cbn. repeat split. discriminate.
  - vm_compute. tauto.
Defined.

Lemma chain_from_spec (R : float -> float -> bool) f
  (Rtrans : forall a b c, R a b = true -> R b c = true -> R a c = true) :
  forall n lo prev,
  chain_from R f n lo prev = true ->
  forall i, lo <= i < lo + Z.of_nat n ->
    R prev (f i) = true /\
    forall j, i < j < lo + Z.of_nat n -> R (f i) (f j) = true.
Proof.
  induction n as [|n IH]; intros lo prev H i Hi; [lia|].
  cbn [chain_from] in H. cbv zeta in H. apply andb_true_iff in H as [H0 H1].
  destruct (Z.eq_dec i lo) as [->|Hne].
  - split; [exact H0|]. intros j Hj.
    apply (IH (lo + 1) (f lo) H1 j). lia.
  - destruct (IH (lo + 1) (f lo) H1 i ltac:(lia)) as [Hi1 Hi2].
    split; [exact (Rtrans _ _ _ H0 Hi1)|].
    intros j Hj. apply Hi2. lia.
Qed.

Lemma ltb_trans a b c :
  (a <? b)%float = true -> (b <? c)%float = true -> (a <? c)%float = true.
Proof.
  intros Hab Hbc.
  destruct (ltb_true_not_nan _ _ Hab) as [Ha Hb].
  destruct (ltb_true_not_nan _ _ Hbc) as [_ Hc].
  destruct (a <? c)%float eqn:E; [reflexivity|].
  pose proof (ltb_asym _ _ Hbc) as Hcb.
  pose proof (ltb_negtrans a c b Hc E Hcb). congruence.
Qed.

Lemma geb_trans a b c : geb a b = true -> geb b c = true -> geb a c = true.
Proof. unfold geb. intros H1 H2. exact (leb_trans_const c b a H2 H1). Qed.

Lemma distance_table :
  chain_from PrimFloat.ltb distance_of (Z.to_nat max_dist2) 1 (distance_of 0) = true.
Proof. vm_compute. reflexivity. Qed.

Lemma confidence_table :
  chain_from geb confidence_of (Z.to_nat max_dist2) 1 (confidence_of 0) = true.
Proof. vm_compute. reflexivity. Qed.

Lemma distance_of_increasing a b :
  0 <= a -> a < b -> b <= max_dist2 ->
  (distance_of a <? distance_of b)%float = true.
Proof.
  intros Ha Hab Hb.
  pose proof (chain_from_spec PrimFloat.ltb distance_of ltb_trans _ _ _ distance_table) as S.
  rewrite Z2Nat.id in S by (unfold max_dist2; lia).
  destruct (Z.eq_dec a 0) as [->|Hne].
  - apply (S b). lia.
  - apply (S a); lia.
Qed.

Lemma confidence_of_decreasing a b :
  0 <= a -> a <= b -> b <= max_dist2 ->
  (confidence_of b <=? confidence_of a)%float = true.
Proof.
  intros Ha Hab Hb.
  pose proof (chain_from_spec geb confidence_of geb_trans _ _ _ confidence_table) as S.
  rewrite Z2Nat.id in S by (unfold max_dist2; lia).
  destruct (Z.eq_dec a b) as [->|Hne].
  - destruct (Z.eq_dec b 0) as [->|Hb0]; [reflexivity|].
    destruct (S b ltac:(lia)) as [S1 _]. unfold geb in S1.
    destruct (leb_true_not_nan _ _ S1) as [Hn _].
    rewrite leb_ltb by assumption.
    destruct (confidence_of b <? confidence_of b)%float eqn:E; [|reflexivity].
    pose proof (ltb_asym _ _ E). congruence.
  - destruct (Z.eq_dec a 0) as [->|Ha0].
    + apply (S b). lia.
    + apply (S a); lia.
Qed.

Lemma confidence_of_range d2 :
  0 <= d2 <= max_dist2 ->
  (0 <=? confidence_of d2)%float = true /\ (confidence_of d2 <=? 100)%float = true.
Proof.
  intros H. split.
  - apply (leb_trans_const 0 (confidence_of max_dist2) (confidence_of d2)).
    + vm_compute. reflexivity.
    + apply confidence_of_decreasing; unfold max_dist2 in *; lia.
  - apply (leb_trans_const (confidence_of d2) (confidence_of 0) 100).
    + apply confidence_of_decreasing; unfold max_dist2 in *; lia.
    + vm_compute. reflexivity.
Qed.

Lemma find_closest_color_d2 self r g b res :
  Forall byte_rgb (colors self) -> byte_rgb (r, g, b) ->
  find_closest_color self r g b 1 = Some res ->
  exists d2, 0 <= d2 <= max_dist2 /\
    d2 = dist2 (r, g, b) (ColorMatcher.rgb res) /\
    distance res = distance_of d2 /\ confidence res = confidence_of d2.
Proof.
  intros Hpal Hq H.
  destruct (find_closest_color_inv _ _ _ _ _ H) as (idx & d2 & Q & ->).
  destruct (query_nearest _ _ _ _ Q) as (Hidx & Hd2 & _).
  exists d2. cbn [ColorMatcher.rgb distance confidence]. repeat split; try assumption;
  rewrite Hd2; apply dist2_range; try assumption; now apply Forall_nth_byte.
Qed.

(** X14.  Over byte colours the confidence of a match lies between 0 and
    100. *)
Theorem confidence_in_range (self : t) (r g b : Z) (res : MatchResult) :
  Forall byte_rgb (colors self) -> byte_rgb (r, g, b) ->
  find_closest_color self r g b 1 = Some res ->
  (0 <=? confidence res)%float = true /\ (confidence res <=? 100)%float = true.
Proof.
  intros Hpal Hq H.
  destruct (find_closest_color_d2 _ _ _ _ _ Hpal Hq H) as (d2 & Hr & _ & _ & ->).
  now apply confidence_of_range.
Qed.

Lemma confidence_in_range_witness :
  exists res,
    find_closest_color (_use_fallback_colors empty) 64 200 180 1 = Some res /\
    (0 <=? confidence res)%float = true /\ (confidence res <=? 100)%float = true.
Proof.
  eexists. split; [reflexivity|].
  apply (confidence_in_range (_use_fallback_colors empty) 64 200 180).
  - repeat constructor; unfold in_byte; lia.
  - unfold byte_rgb, in_byte. lia.
  - reflexivity.
Defined.

(** X15.  Of two matches over byte colours, from the same palette or not, the
    one reported at the smaller distance has a confidence at least as
    high. *)
Theorem confidence_follows_distance
    (self : t) (r g b : Z) (res : MatchResult)
    (self' : t) (r' g' b' : Z) (res' : MatchResult) :
  Forall byte_rgb (colors self) -> byte_rgb (r, g, b) ->
  Forall byte_rgb (colors self') -> byte_rgb (r', g', b') ->
  find_closest_color self r g b 1 = Some res ->
  find_closest_color self' r' g' b' 1 = Some res' ->
  (distance res <=? distance res')%float = true ->
  (confidence res' <=? confidence res)%float = true.
Proof.
  intros Hpal Hq Hpal' Hq' H H' Hd.
  destruct (find_closest_color_d2 _ _ _ _ _ Hpal Hq H) as (d & Hr & _ & Ed & ->).
  destruct (find_closest_color_d2 _ _ _ _ _ Hpal' Hq' H') as (d' & Hr' & _ & Ed' & ->).
  rewrite Ed, Ed' in Hd.
  apply confidence_of_decreasing; try lia.
  destruct (Z.le_gt_cases d d') as [Hle|Hgt]; [exact Hle|].
  assert (L : (distance_of d' <? distance_of d)%float = true)
    by (apply distance_of_increasing; lia).
  apply ltb_leb_false in L. congruence.
Qed.

Lemma confidence_follows_distance_witness :
  exists res res',
    find_closest_color (_use_fallback_colors empty) 250 10 10 1 = Some res /\
    find_closest_color (_use_fallback_colors empty) 64 200 180 1 = Some res' /\
    (confidence res' <=? confidence res)%float = true.
Proof.
  do 2 eexists. split; [reflexivity|]. split; [reflexivity|].
  apply (confidence_follows_distance
           (_use_fallback_colors empty) 250 10 10 _
           (_use_fallback_colors empty) 64 200 180 _).
  - repeat constructor; unfold in_byte; lia.
  - unfold byte_rgb, in_byte. lia.
  - repeat constructor; unfold in_byte; lia.
  - unfold byte_rgb, in_byte. lia.
  - reflexivity.
  - reflexivity.
  - reflexivity.
Defined.

(** ** Search by name *)








(** ** Several neighbours *)

Lemma insert_near_perm x l : Permutation (x :: l) (insert_near x l).
Proof.
  induction l as [|y l IH]; cbn [insert_near]; [reflexivity|].
  destruct (snd x <? snd y); [reflexivity|].
  rewrite perm_swap. now constructor.
Qed.

Lemma insert_near_sorted x l :
  StronglySorted near l -> StronglySorted near (insert_near x l).
Proof.
  induction 1 as [|y l Hs IH Hall]; cbn [insert_near].
  - repeat constructor.
  - destruct (Z.ltb_spec (snd x) (snd y)) as [Hlt|Hge].
    + constructor; [now constructor|].
      constructor; [unfold near; lia|].
      eapply Forall_impl; [|exact Hall]. unfold near. intros a Ha. lia.
    + constructor; [exact IH|].
      apply (Permutation_Forall (insert_near_perm x l)).
      constructor; [unfold near; lia | exact Hall].
Qed.

Lemma fold_insert_near l : forall acc,
  StronglySorted near acc ->
  let res := fold_left (fun acc ip => insert_near ip acc) l acc in
  StronglySorted near res /\ Permutation (l ++ acc) res.
Proof.
  induction l as [|x l IH]; intros acc Hs; cbn [fold_left app].
  - split; [exact Hs | reflexivity].
  - destruct (IH (insert_near x acc) (insert_near_sorted x acc Hs)) as [S P].
    split; [exact S|].
    etransitivity; [|exact P].
    rewrite <- (insert_near_perm x acc). apply Permutation_middle.
Qed.

Lemma by_distance_spec pts q :
  StronglySorted near (by_distance pts q) /\
  Permutation (combine (seq 0 (List.length pts)) (map (dist2 q) pts))
              (by_distance pts q).
Proof.
  unfold by_distance.
  destruct (fold_insert_near
              (combine (seq 0 (List.length pts)) (map (dist2 q) pts)) []
              (SSorted_nil _)) as [S P].
  rewrite app_nil_r in P. split; assumption.
Qed.

Lemma combine_seq_spec q pts : forall i h,
  In h (combine (seq i (List.length pts)) (map (dist2 q) pts)) <->
  (i <= fst h < i + List.length pts)%nat /\
  snd h = dist2 q (nth (fst h - i) pts (0, 0, 0)).
Proof.
  induction pts as [|p pts IH]; intros i [k d]; cbn [List.length seq map combine In fst snd].
  - split; [intros [] | lia].
  - rewrite IH. cbn [fst snd]. split.
    + intros [E | [Hk Hd]].
      * injection E as <- <-. rewrite Nat.sub_diag. split; [lia | reflexivity].
      * split; [lia|]. replace (k - i)%nat with (S (k - S i)) by lia. exact Hd.
    + intros [Hk Hd]. destruct (Nat.eq_dec k i) as [->|Hne].
      * left. rewrite Nat.sub_diag in Hd. cbn in Hd. now subst.
      * right. split; [lia|].
        replace (k - i)%nat with (S (k - S i)) in Hd by lia. exact Hd.
Qed.

Lemma combine_seq_fst q pts i :
  map fst (combine (seq i (List.length pts)) (map (dist2 q) pts)) =
  seq i (List.length pts).
Proof.
  revert i. induction pts as [|p pts IH]; intros i; [reflexivity|].
  cbn [List.length seq map combine fst]. now rewrite IH.
Qed.

Lemma sorted_app_le (l1 l2 : list (nat * Z)) :
  StronglySorted near (l1 ++ l2) ->
  forall a b, In a l1 -> In b l2 -> near a b.
Proof.
  induction l1 as [|x l1 IH]; cbn [app]; intros S a b Ha Hb; [destruct Ha|].
  inversion S as [|? ? S' Hall]; subst.
  destruct Ha as [<-|Ha].
  - rewrite Forall_forall in Hall. apply Hall, in_or_app. now right.
  - now apply IH.
Qed.

Lemma In_firstn {A} (x : A) n l : In x (firstn n l) -> In x l.
Proof.
  intros H. rewrite <- (firstn_skipn n l). apply in_or_app. now left.
Qed.

Lemma sorted_firstn (l : list (nat * Z)) n :
  StronglySorted near l -> StronglySorted near (firstn n l).
Proof.
  intros S. revert n. induction S as [|x l S IH Hall]; intros [|n]; cbn [firstn];
    try constructor.
  - apply IH.
  - rewrite Forall_forall in *. intros y Hy. apply Hall.
    now apply (In_firstn _ _ _ Hy).
Qed.

Lemma NoDup_firstn {A} (l : list A) n : NoDup l -> NoDup (firstn n l).
Proof.
  intros H. rewrite <- (firstn_skipn n l) in H.
  now apply NoDup_app_remove_r in H.
Qed.

(** X18.  For a matcher with parallel, non-empty lists and [count >= 1],
    [find_multiple_matches] returns [min(count, len)] entries, built from
    pairwise different positions of the palette, in the order of their
    distance to the query; no colour left out is nearer than one that is
    returned. *)
Theorem find_multiple_matches_nearest (self : t) (r g b : Z) (count : Z) :
  well_formed self -> 1 <= count ->
  exists hits,
    find_multiple_matches self r g b count =
      Some (map (match_at self (r, g, b)) hits) /\
    Z.of_nat (List.length hits) =
      Z.min count (Z.of_nat (List.length (colors self))) /\
    NoDup (map fst hits) /\
    Forall (fun h => (fst h < List.length (colors self))%nat /\
                     snd h = dist2 (r, g, b) (nth (fst h) (colors self) (0, 0, 0)))
           hits /\
    StronglySorted near hits /\
    forall h j, In h hits -> (j < List.length (colors self))%nat ->
                ~ In j (map fst hits) ->
                snd h <= dist2 (r, g, b) (nth j (colors self) (0, 0, 0)).
Proof.
  intros [Hne _] Hcount.
  set (q := (r, g, b)). set (pts := colors self).
  set (k := Z.min count (Z.of_nat (List.length pts))).
  assert (Hlen : (0 < List.length pts)%nat)
    by (subst pts; destruct (colors self); [contradiction | cbn; lia]).
  destruct (by_distance_spec pts q) as [S P].
  exists (query_k pts q k). unfold query_k.
  assert (Lby : List.length (by_distance pts q) = List.length pts).
  { rewrite <- (Permutation_length P), length_combine, length_seq, length_map. lia. }
  assert (Hin : forall h, In h (by_distance pts q) <->
              (fst h < List.length pts)%nat /\ snd h = dist2 q (nth (fst h) pts (0, 0, 0))).
  { intros h. rewrite <- (Permutation_in' (eq_refl h) P).
    rewrite combine_seq_spec. rewrite Nat.sub_0_r. cbn. lia. }
  assert (ND : NoDup (map fst (by_distance pts q))).
  { apply (Permutation_NoDup (Permutation_map fst P)).
    rewrite combine_seq_fst. apply seq_NoDup. }
  split; [|split; [|split; [|split; [|split]]]].
  - unfold find_multiple_matches. fold pts k q.
    replace (k <? 1) with false by (symmetry; apply Z.ltb_ge; lia).
    reflexivity.
  - rewrite length_firstn, Lby. lia.
  - rewrite <- firstn_map. now apply NoDup_firstn.
  - apply Forall_forall. intros h Hh. apply Hin.
    now apply (In_firstn _ _ _ Hh).
  - now apply sorted_firstn.
  - intros h j Hh Hj Hout.
    set (hj := (j, dist2 q (nth j pts (0, 0, 0)))).
    assert (Hhj : In hj (by_distance pts q)) by (apply Hin; cbn; auto).
    rewrite <- (firstn_skipn (Z.to_nat k) (by_distance pts q)) in Hhj, S.
    apply in_app_or in Hhj as [Hf|Hs].
    + exfalso. apply Hout. now apply (in_map fst) in Hf.
    + exact (sorted_app_le _ _ S h hj Hh Hs).
Qed.

Lemma find_multiple_matches_nearest_witness :
  exists hits,
    find_multiple_matches (_use_fallback_colors empty) 250 160 10 3 =
      Some (map (match_at (_use_fallback_colors empty) (250, 160, 10)) hits) /\
    Z.of_nat (List.length hits) =
      Z.min 3 (Z.of_nat (List.length (colors (_use_fallback_colors empty)))) /\
    NoDup (map fst hits) /\
    Forall (fun h => (fst h < List.length (colors (_use_fallback_colors empty)))%nat /\
                     snd h = dist2 (250, 160, 10)
                               (nth (fst h) (colors (_use_fallback_colors empty)) (0, 0, 0)))
           hits /\
    StronglySorted near hits /\
    forall h j, In h hits ->
                (j < List.length (colors (_use_fallback_colors empty)))%nat ->
                ~ In j (map fst hits) ->
                snd h <= dist2 (250, 160, 10)
                           (nth j (colors (_use_fallback_colors empty)) (0, 0, 0)).
Proof.
  apply find_multiple_matches_nearest; [|lia].
  unfold well_formed. cbn. repeat split. discriminate.
Defined.

(** X19.  The first of several matches is as near as the single match: it
    reports the distance and the confidence of [find_closest_color]. *)
Theorem find_multiple_matches_head (self : t) (r g b : Z) (count : Z) :
  well_formed self -> 1 <= count ->
  exists res m ms,
    find_closest_color self r g b 1 = Some res /\
    find_multiple_matches self r g b count = Some (m :: ms) /\
    distance m = distance res /\ confidence m = confidence res.
Proof.
  intros [Hne _] Hcount.
  destruct (find_closest_color_some self r g b Hne) as (idx & d2 & Q & F).
  destruct (query_nearest _ _ _ _ Q) as (Hidx & Hd2 & Hmin).
  set (q := (r, g, b)) in *. set (pts := colors self) in *.
  set (k := Z.min count (Z.of_nat (List.length pts))).
  destruct (by_distance_spec pts q) as [Sd P].
  assert (Hin : forall h, In h (by_distance pts q) <->
              (fst h < List.length pts)%nat /\ snd h = dist2 q (nth (fst h) pts (0, 0, 0))).
  { intros h. rewrite <- (Permutation_in' (eq_refl h) P).
    rewrite combine_seq_spec. rewrite Nat.sub_0_r. cbn. lia. }
  assert (Hhit : In (idx, d2) (by_distance pts q)) by (apply Hin; cbn; auto).
  assert (Hk : (0 < Z.to_nat k)%nat) by lia.
  destruct (by_distance pts q) as [|h l] eqn:E; [destruct Hhit|].
  assert (Hh : In h (h :: l)) by now left.
  apply Hin in Hh. destruct Hh as [Hh1 Hh2].
  assert (Hd : snd h = d2).
  { apply Z.le_antisymm.
    - destruct Hhit as [->|Hl]; [reflexivity|].
      inversion Sd as [|? ? _ Hall]; subst. rewrite Forall_forall in Hall.
      exact (Hall _ Hl).
    - rewrite Hh2. apply Hmin, Hh1. }
  exists (match_at self q (idx, d2)), (match_at self q h),
         (map (match_at self q) (firstn (Z.to_nat k - 1)%nat l)).
  split; [exact F|]. split.
  - unfold find_multiple_matches. fold pts k q.
    replace (k <? 1) with false by (symmetry; apply Z.ltb_ge; lia).
    unfold query_k. rewrite E.
    replace (Z.to_nat k) with (S (Z.to_nat k - 1)%nat) at 1 by lia.
    reflexivity.
  - destruct h as [i d]. cbn [snd] in Hd. subst d. split; reflexivity.
Qed.

Lemma find_multiple_matches_head_witness :
  exists res m ms,
    find_closest_color (_use_fallback_colors empty) 250 160 10 1 = Some res /\
    find_multiple_matches (_use_fallback_colors empty) 250 160 10 5 = Some (m :: ms) /\
    distance m = distance res /\ confidence m = confidence res.
Proof.
  apply find_multiple_matches_head; [|lia].
  unfold well_formed. cbn. repeat split. discriminate.
Defined.

(** ** The shared instance *)

(** X20.  Once [get_color_matcher] has built the shared matcher, every later
    [match_color] answers from that matcher, whatever the palette file has
    become, leaves it in place, and returns a match. *)
Theorem match_color_reuses_matcher (src : DataSource) (g1 : option t) (m : t) :
  get_color_matcher src None = (g1, inr m) ->
  forall (src' : DataSource) (r g b : Z),
  exists res,
    find_closest_color m r g b 1 = Some res /\
    match_color src' g1 r g b = (g1, inr (Some res)) /\
    get_color_matcher src' g1 = (g1, inr m).
Proof.
  unfold get_color_matcher.
  destruct (__init__ src) as [e|m'] eqn:I; [discriminate|].
  intros H. injection H as <- <-. intros src' r g b.
  assert (W : well_formed m').
  { destruct (init_cases _ _ I) as [->|(es & Hne & ->)];
      [apply well_formed_fallback | now apply well_formed_palette_of]. }
  destruct (find_closest_color_some m' r g b (proj1 W)) as (idx & d2 & _ & F).
  exists (match_at m' (r, g, b) (idx, d2)). split; [exact F|].
  unfold match_color, get_color_matcher. cbv beta iota. unfold ret. rewrite F.
  split; reflexivity.
Qed.

Lemma match_color_reuses_matcher_witness :
  exists res,
    find_closest_color (_use_fallback_colors empty) 1 2 3 1 = Some res /\
    match_color Malformed (Some (_use_fallback_colors empty)) 1 2 3 =
      (Some (_use_fallback_colors empty), inr (Some res)) /\
    get_color_matcher Malformed (Some (_use_fallback_colors empty)) =
      (Some (_use_fallback_colors empty), inr (_use_fallback_colors empty)).
Proof. apply (match_color_reuses_matcher Missing). reflexivity. Defined.

(* ================================================================== *)
(** * The detector: point, region, centre, cluster counts              *)
(* ================================================================== *)

(** X21.  Where [get_color_at_point] returns a colour, the region average of
    radius 0 at the same point returns that colour. *)
Theorem average_region_radius_zero_is_point (image : Image) (x y : Z) (c : RGB) :
  byte_rgb c ->
  get_color_at_point (Some image) x y = Some c ->
  get_average_color_in_region (Some image) x y 0 = Some c.
Proof.
  intros Hc. unfold get_color_at_point.
  destruct ((0 <=? x) && (x <? width image) && (0 <=? y) && (y <? height image))
    eqn:E; [|discriminate].
  intros H. injection H as <-.
  rewrite !andb_true_iff in E. destruct E as [[[E1 E2] E3] E4].
  apply Z.leb_le in E1, E3. apply Z.ltb_lt in E2, E4.
  apply average_region_radius_zero; [lia | lia | exact Hc].
Qed.

Lemma average_region_radius_zero_is_point_witness :
  get_average_color_in_region (Some column_image) 0 1 0 = Some (50, 60, 70).
Proof.
  apply average_region_radius_zero_is_point.
  - unfold byte_rgb, in_byte. lia.
  - reflexivity.
Defined.

Lemma average_region_is_box_mean_witness :
  get_average_color_in_region (Some row_image) 1 0 1 =
  match box_pixels row_image 1 0 1 with
  | [] => None
  | px => Some (mean_channel red px, mean_channel green px, mean_channel blue px)
  end.
Proof. apply average_region_is_box_mean; vm_compute; discriminate. Defined.

(** ** The centre of a camera frame *)

Lemma slice_window len lo hi :
  0 <= len -> 0 <= hi ->
  slice len (Z.max 0 lo) (Z.min len hi) =
  filter (fun i => (lo <=? i) && (i <=? hi - 1)) (zrange 0 len).
Proof.
  intros Hlen Hhi.
  rewrite <- (slice_is_box len lo (hi - 1)) by lia.
  now replace (hi - 1 + 1) with hi by lia.
Qed.

Lemma slice_backwards len lo hi :
  0 <= len -> 0 <= lo -> (if hi <? 0 then hi + len <= lo else hi <= lo) ->
  slice len lo hi = [].
Proof.
  intros Hlen Hlo H. unfold slice, adjust_index.
  destruct (Z.ltb_spec lo 0); [lia|].
  destruct (Z.ltb_spec hi 0); apply zrange_nil; lia.
Qed.

Lemma In_zrange i lo hi : In i (zrange lo hi) <-> lo <= i < hi.
Proof.
  unfold zrange. rewrite in_map_iff. split.
  - intros (k & <- & Hk). apply in_seq in Hk. lia.
  - intros H. exists (Z.to_nat (i - lo)). split; [lia|]. apply in_seq. lia.
Qed.

Lemma In_region_pixels image rows cols i j :
  In i rows -> In j cols -> In (pixel image i j) (region_pixels image rows cols).
Proof.
  intros Hi Hj. unfold region_pixels. apply in_flat_map. exists i.
  split; [exact Hi|]. apply in_map_iff. exists j. auto.
Qed.

(** X23.  On a frame of at least one pixel, [get_color_at_center] with a
    radius of 1 or more returns the truncated mean of the window of rows
    [cy - radius .. cy + radius - 1] and columns [cx - radius .. cx + radius
    - 1] clipped to the frame, a window that holds the centre pixel; with a
    radius of 0 or less the window is empty and the call raises. *)
Theorem get_color_at_center_window (frame : Image) (radius : Z) :
  1 <= height frame -> 1 <= width frame ->
  let cx := width frame / 2 in
  let cy := height frame / 2 in
  let px := window_pixels frame (cx - radius) (cx + radius - 1)
                                (cy - radius) (cy + radius - 1) in
  if radius <? 1 then get_color_at_center (Some frame) radius = CenterError
  else
    In (pixel frame cy cx) px /\
    get_color_at_center (Some frame) radius =
      CenterColor (mean_channel red px, mean_channel green px, mean_channel blue px).
Proof.
  intros Hh Hw cx cy px.
  assert (Hcy : 0 <= cy /\ 2 * cy <= height frame < 2 * cy + 2 /\ cy < height frame)
    by (subst cy; pose proof (Z.div_mod (height frame) 2);
        pose proof (Z.mod_pos_bound (height frame) 2); lia).
  assert (Hcx : 0 <= cx /\ 2 * cx <= width frame < 2 * cx + 2 /\ cx < width frame)
    by (subst cx; pose proof (Z.div_mod (width frame) 2);
        pose proof (Z.mod_pos_bound (width frame) 2); lia).
  unfold get_color_at_center. fold cx cy.
  destruct (Z.ltb_spec radius 1) as [Hr|Hr].
  - rewrite (slice_backwards (height frame)).
    + reflexivity.
    + lia.
    + lia.
    + destruct (Z.ltb_spec (Z.min (height frame) (cy + radius)) 0); lia.
  - rewrite (slice_window (height frame)), (slice_window (width frame)) by lia.
    fold (window_pixels frame (cx - radius) (cx + radius - 1)
                              (cy - radius) (cy + radius - 1)).
    fold px.
    assert (Hin : In (pixel frame cy cx) px).
    { apply In_region_pixels; apply filter_In; (split; [apply In_zrange; lia|]);
        apply andb_true_iff; split; apply Z.leb_le; lia. }
    split; [exact Hin|].
    destruct px; [destruct Hin | reflexivity].
Qed.

Lemma get_color_at_center_window_witness :
  In (pixel column_image 1 0) (window_pixels column_image (0 - 1) (0 + 1 - 1)
                                             (1 - 1) (1 + 1 - 1)) /\
  get_color_at_center (Some column_image) 1 =
    CenterColor
      (mean_channel red (window_pixels column_image (0 - 1) (0 + 1 - 1) (1 - 1) (1 + 1 - 1)),
       mean_channel green (window_pixels column_image (0 - 1) (0 + 1 - 1) (1 - 1) (1 + 1 - 1)),
       mean_channel blue (window_pixels column_image (0 - 1) (0 + 1 - 1) (1 - 1) (1 + 1 - 1))).
Proof. apply (get_color_at_center_window column_image 1); cbn; lia. Defined.

(** ** The counts of the dominant colours *)

Lemma count_label_total l acc :
  total (map snd (count_label l acc)) = total (map snd acc) + 1.
Proof.
  induction acc as [|[l' c] acc IH]; cbn [count_label]; [reflexivity|].
  unfold total in *.
  destruct (l =? l'); [cbn [map snd fold_right]; lia|].
  destruct (l <? l'); cbn [map snd fold_right] in *; [lia|].
  rewrite IH. lia.
Qed.

Lemma count_label_positive l acc :
  Forall (fun e => 1 <= snd e) acc -> Forall (fun e => 1 <= snd e) (count_label l acc).
Proof.
  induction 1 as [|[l' c] acc Hc Hacc IH]; cbn [count_label].
  - constructor; [cbn; lia | constructor].
  - cbn [snd] in Hc.
    destruct (l =? l'); [constructor; [cbn; lia | exact Hacc]|].
    destruct (l <? l'); constructor; cbn [snd]; try lia; try assumption.
    now constructor.
Qed.

Lemma count_label_keys l acc lo hi :
  lo <= l < hi ->
  StronglySorted Z.lt (map fst acc) -> Forall (fun k => lo <= k < hi) (map fst acc) ->
  StronglySorted Z.lt (map fst (count_label l acc)) /\
  Forall (fun k => lo <= k < hi) (map fst (count_label l acc)) /\
  Forall (fun k => k = l \/ In k (map fst acc)) (map fst (count_label l acc)).
Proof.
  intros Hl. induction acc as [|[l' c] acc IH]; cbn [count_label map fst]; intros S R.
  - split; [repeat constructor|].
    split; [constructor; [lia | constructor]|].
    constructor; [now left | constructor].
  - inversion S as [|? ? S' Hall]; subst. inversion R as [|? ? R1 R'] ; subst.
    destruct (Z.eqb_spec l l') as [->|Hne]; cbn [map fst].
    + split; [exact S|]. split; [exact R|].
      apply Forall_forall. intros k Hk. right. exact Hk.
    + destruct (Z.ltb_spec l l') as [Hlt|Hge]; cbn [map fst].
      * split; [|split].
        -- constructor; [exact S|]. constructor; [exact Hlt|].
           eapply Forall_impl; [|exact Hall]. cbn. intros. lia.
        -- constructor; assumption.
        -- constructor; [now left|]. apply Forall_forall. intros k Hk. right. exact Hk.
      * destruct (IH S' R') as (S1 & R1' & K1).
        split; [|split].
        -- constructor; [exact S1|].
           rewrite Forall_forall in *. intros k Hk.
           destruct (K1 k Hk) as [->|Hin]; [lia | now apply Hall].
        -- constructor; assumption.
        -- constructor; [right; now left|].
           eapply Forall_impl; [|exact K1]. cbn. intros k [->|Hk]; auto.
Qed.

Lemma sorted_range_length (l : list Z) : forall lo hi,
  StronglySorted Z.lt l -> Forall (fun k => lo <= k < hi) l ->
  Z.of_nat (List.length l) <= Z.max 0 (hi - lo).
Proof.
  induction l as [|x l IH]; intros lo hi S R; cbn [List.length]; [lia|].
  inversion S as [|? ? S' Hall]; subst. inversion R as [|? ? Rx R']; subst.
  assert (R1 : Forall (fun k => x + 1 <= k < hi) l).
  { rewrite Forall_forall in *. intros k Hk.
    specialize (Hall k Hk). specialize (R' k Hk). cbn in *. lia. }
  specialize (IH (x + 1) hi S' R1). lia.
Qed.

Lemma unique_counts_spec labels n :
  Forall (fun l => 0 <= l < n) labels ->
  total (map snd (unique_counts labels)) = Z.of_nat (List.length labels) /\
  Forall (fun e => 1 <= snd e) (unique_counts labels) /\
  Z.of_nat (List.length (unique_counts labels)) <= Z.max 0 n.
Proof.
  intros Hl. unfold unique_counts.
  assert (G : forall acc,
    StronglySorted Z.lt (map fst acc) -> Forall (fun k => 0 <= k < n) (map fst acc) ->
    Forall (fun e => 1 <= snd e) acc ->
    let res := fold_left (fun acc l => count_label l acc) labels acc in
    total (map snd res) = total (map snd acc) + Z.of_nat (List.length labels) /\
    Forall (fun e => 1 <= snd e) res /\
    StronglySorted Z.lt (map fst res) /\ Forall (fun k => 0 <= k < n) (map fst res)).
  { induction Hl as [|l labels Hl0 Hl IH]; intros acc S R P; cbn [fold_left List.length].
    - repeat split; try assumption. cbn. lia.
    - destruct (count_label_keys l acc 0 n Hl0 S R) as (S1 & R1 & _).
      destruct (IH _ S1 R1 (count_label_positive l acc P)) as (T & P' & S' & R').
      cbv zeta in *. rewrite T, count_label_total. repeat split; try assumption. lia. }
  destruct (G [] (SSorted_nil _) (Forall_nil _) (Forall_nil _)) as (T & P & S & R).
  cbv zeta in *. split; [rewrite T; cbn; lia|]. split; [exact P|].
  pose proof (sorted_range_length _ 0 n S R) as L. rewrite length_map in L. lia.
Qed.

Lemma build_results_counts colors : forall counts tot,
  (List.length counts <= List.length colors)%nat ->
  map count (build_results colors counts tot) = counts /\
  Forall (fun e => percentage e = Py.round1 (Py.Z2F (count e) / Py.Z2F tot * 100)%float)
         (build_results colors counts tot).
Proof.
  induction colors as [|c colors IH]; intros [|n counts] tot H;
    cbn [build_results map List.length] in *; try (split; [reflexivity | constructor]).
  - lia.
  - destruct (IH counts tot ltac:(lia)) as [E F].
    rewrite E. split; [reflexivity|]. constructor; [reflexivity | exact F].
Qed.

Lemma total_perm l l' : Permutation l l' -> total l = total l'.
Proof.
  induction 1; cbn in *; unfold total in *; cbn; lia.
Qed.

(** X24.  When the clustering labels every sample with the index of one of
    its centres, [extract_dominant_colors] reports at most one entry per
    centre, each with a count of at least 1 and with the percentage
    [round(count / total * 100, 1)], and the counts add up to the number of
    labelled samples. *)
Theorem extract_counts_add_up
    (KMeans_fit : Z -> Z -> Z -> list Point -> option (list Point * list Z))
    (image : Image) (n_colors sample_size : Z) (draw : list Z)
    (centres : list Point) (labels : list Z) :
  0 <= sample_size ->
  KMeans_fit n_colors 42 10 (astype_float (clustered image sample_size draw)) =
    Some (centres, labels) ->
  Forall (fun l => 0 <= l < Z.of_nat (List.length centres)) labels ->
  exists results,
    extract_dominant_colors KMeans_fit (Some image) n_colors sample_size draw =
      Some results /\
    total (map count results) = Z.of_nat (List.length labels) /\
    (List.length results <= List.length centres)%nat /\
    Forall (fun e => 1 <= count e /\
                     percentage e =
                       Py.round1 (Py.Z2F (count e) /
                                  Py.Z2F (Z.of_nat (List.length labels)) * 100)%float)
           results.
Proof.
  intros Hs Hfit Hlab.
  destruct (unique_counts_spec labels _ Hlab) as (T & P & L).
  set (counts := map snd (unique_counts labels)) in *.
  assert (Lc : (List.length counts <= List.length centres)%nat)
    by (subst counts; rewrite length_map; lia).
  destruct (build_results_counts centres counts (Z.of_nat (List.length labels)) Lc)
    as [E F].
  set (raw := build_results centres counts (Z.of_nat (List.length labels))) in *.
  exists (sort_desc percentage raw).
  pose proof (sort_desc_perm percentage raw) as Perm.
  split; [|split; [|split]].
  - unfold extract_dominant_colors, cluster_summary.
    unfold clustered in Hfit.
    destruct (sample_size <? Z.of_nat (List.length (reshape_pixels image))).
    + replace (sample_size <? 0) with false by (symmetry; apply Z.ltb_ge; lia).
      rewrite Hfit. reflexivity.
    + rewrite Hfit. reflexivity.
  - rewrite (total_perm _ _ (Permutation_map count Perm)), E. exact T.
  - rewrite (Permutation_length Perm).
    rewrite <- (length_map count raw), E. exact Lc.
  - apply (Permutation_Forall (Permutation_sym Perm)).
    apply Forall_forall. intros e He. split.
    + assert (Hc : In (count e) counts) by (rewrite <- E; now apply in_map).
      subst counts. apply in_map_iff in Hc as (p & <- & Hp).
      rewrite Forall_forall in P. now apply P.
    + rewrite Forall_forall in F. now apply F.
Qed.

Lemma extract_counts_add_up_witness :
  exists results,
    extract_dominant_colors KMeans1_fit (Some row_image) 1 5 [] = Some results /\
    total (map count results) = Z.of_nat (List.length [0; 0]) /\
    (List.length results <= List.length [(127.5, 127.5, 127.5)%float])%nat /\
    Forall (fun e => 1 <= count e /\
                     percentage e =
                       Py.round1 (Py.Z2F (count e) /
                                  Py.Z2F (Z.of_nat (List.length [0; 0])) * 100)%float)
           results.
Proof.
  apply (extract_counts_add_up KMeans1_fit row_image 1 5 []
           [(127.5, 127.5, 127.5)%float] [0; 0]).
  - lia.
  - reflexivity.
  - repeat constructor; cbn; lia.
Defined.

(* ================================================================== *)
(** * The UI: parser, history, favourites                              *)
(* ================================================================== *)

Import App.

(** ** The UI's parser *)

Lemma int16_empty : Py.int16 EmptyString = None.
Proof. reflexivity. Qed.

(** X25.  The UI's own [_hex_to_rgb] agrees with the converter's
    [hex_to_rgb] on every string that is not three characters long once the
    leading ['#'] are stripped, and refuses every string that is. *)
Theorem ui_hex_to_rgb_agrees (s : string) :
  if Nat.eqb (String.length (Py.lstrip "#" s)) 3
  then App._hex_to_rgb s = None
  else App._hex_to_rgb s = hex_to_rgb s.
Proof.
  unfold App._hex_to_rgb, hex_to_rgb.
  destruct (Nat.eqb_spec (String.length (Py.lstrip "#" s)) 3) as [E|_];
    [|reflexivity].
  rewrite (slice2_short4 (Py.lstrip "#" s)) by lia. rewrite int16_empty.
  destruct (Py.int16 (Py.slice2 0 (Py.lstrip "#" s))); [|reflexivity].
  destruct (Py.int16 (Py.slice2 2 (Py.lstrip "#" s))); reflexivity.
Qed.

(** ** History and favourites *)

Lemma filter_all {A} (p : A -> bool) l :
  Forall (fun x => p x = true) l -> filter p l = l.
Proof.
  induction 1 as [|x l Hx _ IH]; cbn [filter]; [reflexivity|].
  now rewrite Hx, IH.
Qed.

Lemma filter_other_hex hex_c l :
  Forall (fun c => other_hex hex_c c = true) (filter (other_hex hex_c) l).
Proof. apply Forall_forall. intros c Hc. now apply filter_In in Hc. Qed.

Lemma Forall_firstn {A} (P : A -> Prop) n l : Forall P l -> Forall P (firstn n l).
Proof.
  rewrite !Forall_forall. intros H x Hx. apply H. now apply (In_firstn _ _ _ Hx).
Qed.

Lemma NoDup_map_filter {A B} (f : A -> B) p l :
  NoDup (map f l) -> NoDup (map f (filter p l)).
Proof.
  induction l as [|x l IH]; cbn [map filter]; [auto|].
  intros H. inversion H as [|? ? Hx Hl]; subst.
  destruct (p x); cbn [map]; [|now apply IH].
  constructor; [|now apply IH].
  intros Hin. apply Hx. apply in_map_iff in Hin as (y & Ey & Hy).
  apply filter_In in Hy as [Hy _]. apply in_map_iff. eauto.
Qed.

Lemma other_hex_spec hex_c c : other_hex hex_c c = true <-> e_hex c <> hex_c.
Proof.
  unfold other_hex. destruct (String.eqb_spec (e_hex c) hex_c); cbn; split;
    congruence.
Qed.

Lemma add_to_history_eq matcher color_history r g b :
  well_formed matcher ->
  exists res,
    find_closest_color matcher r g b 1 = Some res /\
    _add_to_history matcher color_history (r, g, b) =
      Some ({| e_rgb := (r, g, b); e_hex := rgb_to_hex r g b; e_name := name res |}
            :: firstn 19 (filter (other_hex (rgb_to_hex r g b)) color_history)).
Proof.
  intros [Hne _].
  destruct (find_closest_color_some matcher r g b Hne) as (idx & d2 & _ & F).
  eexists. split; [exact F|].
  unfold _add_to_history. rewrite F. reflexivity.
Qed.

(** X26.  With a matcher as the constructor builds it, [_add_to_history] puts the
    picked colour first, under its hex code and the name of its nearest
    palette entry; what follows are entries of the old history with other
    hex codes, in their old order; the history never exceeds 20 entries and
    stays free of repeated hex codes. *)
Theorem add_to_history_invariant (matcher : ColorMatcher.t)
    (color_history : list Entry) (r g b : Z) :
  well_formed matcher ->
  exists res rest,
    find_closest_color matcher r g b 1 = Some res /\
    _add_to_history matcher color_history (r, g, b) =
      Some ({| e_rgb := (r, g, b); e_hex := rgb_to_hex r g b; e_name := name res |}
            :: rest) /\
    rest = firstn 19 (filter (other_hex (rgb_to_hex r g b)) color_history) /\
    (List.length rest < max_history)%nat /\
    Forall (fun c => In c color_history /\ e_hex c <> rgb_to_hex r g b) rest /\
    (NoDup (map e_hex color_history) ->
     NoDup (rgb_to_hex r g b :: map e_hex rest)).
Proof.
  intros Hwf.
  destruct (add_to_history_eq matcher color_history r g b Hwf) as (res & F & E).
  exists res, (firstn 19 (filter (other_hex (rgb_to_hex r g b)) color_history)).
  split; [exact F|]. split; [exact E|]. split; [reflexivity|].
  assert (Hall : Forall (fun c => In c color_history /\ e_hex c <> rgb_to_hex r g b)
                   (firstn 19 (filter (other_hex (rgb_to_hex r g b)) color_history))).
  { apply Forall_firstn, Forall_forall. intros c Hc.
    apply filter_In in Hc as [Hc Ho]. split; [exact Hc | now apply other_hex_spec]. }
  split; [|split; [exact Hall|]].
  - rewrite length_firstn. unfold max_history. lia.
  - intros ND. constructor.
    + intros Hin. apply in_map_iff in Hin as (c & Ec & Hc).
      rewrite Forall_forall in Hall. now destruct (Hall c Hc).
    + rewrite <- firstn_map. apply NoDup_firstn. now apply NoDup_map_filter.
Qed.

Lemma add_to_history_invariant_witness :
  exists res rest,
    find_closest_color (_use_fallback_colors empty) 255 165 0 1 = Some res /\
    _add_to_history (_use_fallback_colors empty) [] (255, 165, 0) =
      Some ({| e_rgb := (255, 165, 0); e_hex := rgb_to_hex 255 165 0;
               e_name := name res |} :: rest) /\
    rest = firstn 19 (filter (other_hex (rgb_to_hex 255 165 0)) []) /\
    (List.length rest < max_history)%nat /\
    Forall (fun c => In c [] /\ e_hex c <> rgb_to_hex 255 165 0) rest /\
    (NoDup (map e_hex []) -> NoDup (rgb_to_hex 255 165 0 :: map e_hex rest)).
Proof.
  apply add_to_history_invariant.
  unfold well_formed. cbn. repeat split. discriminate.
Defined.

(** X27.  Picking the same colour again changes nothing: a second
    [_add_to_history] of the colour just added returns the same history. *)
Theorem add_to_history_twice (matcher : ColorMatcher.t)
    (color_history history' : list Entry) (rgb : RGB) :
  _add_to_history matcher color_history rgb = Some history' ->
  _add_to_history matcher history' rgb = Some history'.
Proof.
  destruct rgb as [[r g] b]. unfold _add_to_history.
  destruct (find_closest_color matcher r g b 1) as [res|]; [|discriminate].
  fold (other_hex (rgb_to_hex r g b)).
  set (entry := {| e_rgb := (r, g, b); e_hex := rgb_to_hex r g b; e_name := name res |}).
  set (kept := filter (other_hex (rgb_to_hex r g b)) color_history).
  intros H.
  assert (E : firstn max_history (entry :: kept) = history') by (now injection H).
  rewrite <- E. clear H E. unfold max_history.
  rewrite (firstn_cons 19 entry kept).
  set (rest := firstn 19 kept).
  assert (Hrest : Forall (fun c => other_hex (rgb_to_hex r g b) c = true) rest)
    by (apply Forall_firstn, filter_other_hex).
  cbn [filter].
  replace (other_hex (rgb_to_hex r g b) entry) with false
    by (unfold other_hex, entry; cbn [e_hex]; now rewrite String.eqb_refl).
  rewrite (filter_all _ _ Hrest), firstn_cons. unfold rest.
  now rewrite firstn_firstn.
Qed.

Lemma add_to_history_twice_witness :
  exists history',
    _add_to_history (_use_fallback_colors empty) [] (255, 165, 0) = Some history' /\
    _add_to_history (_use_fallback_colors empty) history' (255, 165, 0) = Some history'.
Proof.
  eexists. split; [reflexivity|].
  apply (add_to_history_twice (_use_fallback_colors empty) []). reflexivity.
Defined.

(** X28.  The favourites stay free of repeated hex codes under
    [_add_to_favorites] and [_delete_favorite]; after an addition the
    current colour's hex code is among them, after a deletion the deleted
    one is not, and deleting a colour that was just added to favourites
    without it gives back the old list. *)
Theorem favorites_distinct_hex (current_color : option Entry) (color : Entry)
    (favorite_colors : list Entry) :
  NoDup (map e_hex favorite_colors) ->
  NoDup (map e_hex (_add_to_favorites current_color favorite_colors)) /\
  NoDup (map e_hex (_delete_favorite color favorite_colors)) /\
  ~ In (e_hex color) (map e_hex (_delete_favorite color favorite_colors)) /\
  (forall e, current_color = Some e ->
     In (e_hex e) (map e_hex (_add_to_favorites current_color favorite_colors)) /\
     (~ In (e_hex e) (map e_hex favorite_colors) ->
      _delete_favorite e (_add_to_favorites current_color favorite_colors) =
        favorite_colors)).
Proof.
  intros ND.
  assert (Hex : forall e,
            existsb (fun f => String.eqb (e_hex f) (e_hex e)) favorite_colors = true <->
            In (e_hex e) (map e_hex favorite_colors)).
  { intros e. rewrite existsb_exists, in_map_iff. split.
    - intros (f & Hf & Ef). apply String.eqb_eq in Ef. eauto.
    - intros (f & Ef & Hf). exists f. split; [exact Hf | now apply String.eqb_eq]. }
  split; [|split; [|split]].
  - unfold _add_to_favorites. destruct current_color as [e|]; [|exact ND].
    destruct (existsb _ favorite_colors) eqn:Ex; [exact ND|].
    rewrite map_app. cbn [map].
    apply (Permutation_NoDup (Permutation_cons_append _ _)).
    constructor; [|exact ND].
    intros Hin. apply Hex in Hin. congruence.
  - unfold _delete_favorite. now apply NoDup_map_filter.
  - unfold _delete_favorite. intros Hin.
    apply in_map_iff in Hin as (f & Ef & Hf). apply filter_In in Hf as [_ Hf].
    fold (other_hex (e_hex color) f) in Hf. apply other_hex_spec in Hf. congruence.
  - intros e ->. unfold _add_to_favorites. split.
    + destruct (existsb _ favorite_colors) eqn:Ex; [now apply Hex|].
      rewrite map_app. apply in_or_app. right. now left.
    + intros Hout.
      destruct (existsb _ favorite_colors) eqn:Ex; [apply Hex in Ex; contradiction|].
      unfold _delete_favorite. rewrite filter_app. cbn [filter].
      rewrite String.eqb_refl. cbn [negb]. rewrite app_nil_r.
      apply filter_all, Forall_forall. intros f Hf.
      fold (other_hex (e_hex e) f). apply other_hex_spec.
      intros E. apply Hout. rewrite <- E. now apply in_map.
Qed.

Lemma favorites_distinct_hex_witness :
  let orange := {| e_rgb := (255, 165, 0); e_hex := "#FFA500"; e_name := "Orange" |} in
  NoDup (map e_hex (_add_to_favorites (Some orange) [])) /\
  NoDup (map e_hex (_delete_favorite orange [])) /\
  ~ In (e_hex orange) (map e_hex (_delete_favorite orange [])) /\
  (forall e, Some orange = Some e ->
     In (e_hex e) (map e_hex (_add_to_favorites (Some orange) [])) /\
     (~ In (e_hex e) (map e_hex []) ->
      _delete_favorite e (_add_to_favorites (Some orange) []) = [])).
Proof. apply favorites_distinct_hex. constructor. Defined.
